(** * HarmonyLearn-v2: the request layer, its data access and its bootstrap

    A shallow embedding of [server/env.ts], [shared/types.ts] (the zod
    schemas), [server/storage.ts] and [server/routes.ts], with the
    properties of the specification stated about them.

    JavaScript objects are finite maps from field names to JSON values, an
    absent key standing for [undefined]; a rejected promise or a thrown
    exception is the [Throw] outcome; the relational store is an explicit
    state threaded through every data-access call. *)

From stdpp Require Import gmap strings list fin_maps functions sorting.
From Stdlib Require Import ZArith Ascii String.

Set Warnings "-register-all".
Open Scope string_scope.
Open Scope Z_scope.

(** ** JSON values and JavaScript truthiness *)

Module Json.

(** Numbers are the integer-valued ones: ids, counters and the like. *)
Inductive value :=
  | VNull
  | VBool (b : bool)
  | VNum (n : Z)
  | VStr (s : string)
  | VDate (t : Z)
  | VArr (l : list value)
  | VObj (o : gmap string value).

Abbreviation object := (gmap string value).

(** [!!x] of JavaScript; [None] is [undefined]. *)
Definition truthy (x : option value) : bool :=
  match x with
  | None | Some VNull => false
  | Some (VBool b) => b
  | Some (VNum n) => negb (n =? 0)
  | Some (VStr s) => negb (String.eqb s "")
  | Some (VDate _) | Some (VArr _) | Some (VObj _) => true
  end.

(** [a || b] on a possibly undefined left operand, [b] being defined. *)
Definition or_else (a : option value) (b : value) : value :=
  match a with
  | Some v => if truthy a then v else b
  | None => b
  end.

(** Object rest and pick: [const { k, ...rest } = o] and [{ k1, k2 }]. *)
Definition rest (k : string) (o : object) : object := delete k o.

Definition pick (ks : list string) (o : object) : object :=
  filter (λ kv, kv.1 ∈ ks) o.

End Json.
Export Json.

(** ** Outcomes of fallible code *)

Inductive error :=
  | ZodError (issues : list string)
  | TypeError (msg : string)
  | PrismaError (code : string)
  | Error (msg : string).

Inductive outcome (A : Type) :=
  | Ok (a : A)
  | Throw (e : error).
Arguments Ok {A} a.
Arguments Throw {A} e.

Definition is_ok {A} (o : outcome A) : bool :=
  match o with Ok _ => true | Throw _ => false end.

(** ** The zod schemas of [shared/types.ts] and [server/env.ts] *)

Module Zod.

Inductive ztype :=
  | ZString
  | ZStringMatching (re : string → bool)
  | ZNumber
  | ZBoolean
  | ZStringArray
  | ZEnum (options : list string).

Inductive presence :=
  | Required
  | Optional
  | Default (v : value).

Record field := Field { fname : string; ftype : ztype; fpres : presence }.

Definition shape := list field.

Definition is_string (v : value) : bool :=
  match v with VStr _ => true | _ => false end.

Definition check (t : ztype) (v : value) : bool :=
  match t, v with
  | ZString, VStr _ => true
  | ZStringMatching re, VStr s => re s
  | ZNumber, VNum _ => true
  | ZBoolean, VBool _ => true
  | ZStringArray, VArr l => forallb is_string l
  | ZEnum options, VStr s => bool_decide (s ∈ options)
  | _, _ => false
  end.

(** One key of a [z.object]: [inr None] leaves the key out of the parsed
    object, [inl path] is an issue at that path. *)
Definition parse_field (input : object) (f : field) : string + option value :=
  match input !! fname f, fpres f with
  | None, Required => inl (fname f)
  | None, Optional => inr None
  | None, Default d => if check (ftype f) d then inr (Some d) else inl (fname f)
  | Some v, _ => if check (ftype f) v then inr (Some v) else inl (fname f)
  end.

(** [schema.parse(input)]: keys outside the shape are stripped, every key
    of the shape is visited and the issues of all of them are collected. *)
Fixpoint parse_keys (sh : shape) (input : object) : list string * object :=
  match sh with
  | [] => ([], ∅)
  | f :: sh' =>
      let '(issues, out) := parse_keys sh' input in
      match parse_field input f with
      | inl path => (path :: issues, out)
      | inr None => (issues, out)
      | inr (Some v) => (issues, <[fname f := v]> out)
      end
  end.

Definition parse (sh : shape) (input : object) : outcome object :=
  match parse_keys sh input with
  | ([], out) => Ok out
  | (issues, _) => Throw (ZodError issues)
  end.

(** Whether a key parses, and what it parses to. *)
Definition field_ok (input : object) (f : field) : bool :=
  match parse_field input f with inl _ => false | inr _ => true end.

Definition field_value (input : object) (f : field) : option value :=
  match parse_field input f with inl _ => None | inr o => o end.

(** An object that holds accepted values under the keys of the shape,
    lacks optional keys only, and holds nothing else, parses to itself. *)
Definition settled (sh : shape) (o : object) : Prop :=
  (∀ k, is_Some (o !! k) → k ∈ fname <$> sh) ∧
  ∀ f, f ∈ sh →
    match o !! fname f with
    | Some v => check (ftype f) v = true
    | None => fpres f = Optional
    end.

Section UserSchema.
(** The pattern behind [z.string().email()], a regular expression of the
    zod library. *)
Variable is_email : string → bool.

Definition insertUserSchema : shape :=
  [ Field "username" ZString Required;
    Field "password" ZString Required;
    Field "email" (ZStringMatching is_email) Required;
    Field "role" ZString (Default (VStr "student"));
    Field "isMaster" ZBoolean (Default (VBool false));
    Field "firstName" ZString Optional;
    Field "lastName" ZString Optional;
    Field "avatar" ZString Optional;
    Field "bio" ZString Optional;
    Field "xp" ZNumber (Default (VNum 0));
    Field "level" ZNumber (Default (VNum 1)) ].
End UserSchema.

Definition insertCourseSchema : shape :=
  [ Field "title" ZString Required;
    Field "description" ZString Optional;
    Field "category" ZString Required;
    Field "level" ZString Required;
    Field "price" ZNumber Optional;
    Field "duration" ZNumber Optional;
    Field "mentorId" ZNumber Optional;
    Field "imageUrl" ZString Optional;
    Field "isActive" ZBoolean (Default (VBool true));
    Field "status" ZString (Default (VStr "draft"));
    Field "approvedBy" ZNumber Optional;
    Field "adminNotes" ZString Optional;
    Field "syllabus" ZString Optional;
    Field "prerequisites" ZStringArray (Default (VArr []));
    Field "learningObjectives" ZStringArray (Default (VArr []));
    Field "targetAudience" ZString Optional;
    Field "difficulty" ZNumber (Default (VNum 1));
    Field "estimatedWeeks" ZNumber Optional;
    Field "maxStudents" ZNumber (Default (VNum 100));
    Field "currentEnrollments" ZNumber (Default (VNum 0));
    Field "tags" ZStringArray (Default (VArr [])) ].

Definition insertClassroomSchema : shape :=
  [ Field "title" ZString Required;
    Field "subject" ZString Required;
    Field "level" ZString Required;
    Field "description" ZString Optional;
    Field "masterId" ZNumber Optional;
    Field "maxStudents" ZNumber (Default (VNum 50));
    Field "isActive" ZBoolean (Default (VBool true));
    Field "academyName" ZString Optional;
    Field "about" ZString Optional;
    Field "instruments" ZStringArray (Default (VArr []));
    Field "curriculum" ZString Optional;
    Field "heroImage" ZString Optional;
    Field "logoImage" ZString Optional;
    Field "aboutImage" ZString Optional;
    Field "primaryColor" ZString (Default (VStr "#3B82F6"));
    Field "secondaryColor" ZString (Default (VStr "#10B981"));
    Field "contactEmail" ZString Optional;
    Field "contactPhone" ZString Optional;
    Field "website" ZString Optional;
    Field "socialLinks" ZString Optional;
    Field "features" ZStringArray (Default (VArr []));
    Field "testimonials" ZString Optional;
    Field "pricing" ZString Optional;
    Field "schedule" ZString Optional;
    Field "address" ZString Optional;
    Field "isPublic" ZBoolean (Default (VBool true));
    Field "customSlug" ZString Optional ].

End Zod.

(** ** [server/env.ts]: the environment and the configuration *)

Module Env.
Import Zod.

Definition envSchema : shape :=
  [ Field "NODE_ENV" (ZEnum ["development"; "production"; "test"])
      (Default (VStr "development"));
    Field "PORT" ZString (Default (VStr "5000"));
    Field "DATABASE_URL" ZString Optional;
    Field "SESSION_SECRET" ZString
      (Default (VStr "fallback-secret-key-change-in-production"));
    Field "CORS_ORIGIN" ZString (Default (VStr "*"));
    Field "APP_NAME" ZString (Default (VStr "HarmonyLearn"));
    Field "APP_VERSION" ZString (Default (VStr "1.0.0"));
    Field "DATABASE_SSL" ZString (Default (VStr "false"));
    Field "DATABASE_POOL_SIZE" ZString (Default (VStr "10"));
    Field "REQUEST_TIMEOUT" ZString (Default (VStr "30000"));
    Field "BODY_LIMIT" ZString (Default (VStr "10mb")) ].

(** [process.env]: every variable that is set holds a string. *)
Abbreviation process_env := (gmap string string).

(** The parsed environment, [Env] of the source, keyed by variable name. *)
Abbreviation Env := (gmap string string).

Definition as_string (v : value) : option string :=
  match v with VStr s => Some s | _ => None end.

Definition parseEnv (penv : process_env) : outcome Env :=
  match parse envSchema (VStr <$> penv) with
  | Ok out => Ok (omap as_string out)
  | Throw _ => Throw (Error "Environment validation failed")
  end.

(** *** [parseInt], radix left out *)

Definition is_space (c : ascii) : bool :=
  let n := nat_of_ascii c in
  ((9 <=? n) && (n <=? 13))%nat || (n =? 32)%nat.

(** Leading white space: the ASCII blanks, and NBSP, BOM, the Unicode
    space separators and the line and paragraph separators in UTF-8. *)
Definition bytes (l : list nat) : string :=
  string_of_list_ascii (ascii_of_nat <$> l).

Definition utf8_spaces : list string :=
  bytes <$>
  [ [194; 160]; [239; 187; 191]; [225; 154; 128];
    [226; 128; 128]; [226; 128; 129]; [226; 128; 130]; [226; 128; 131];
    [226; 128; 132]; [226; 128; 133]; [226; 128; 134]; [226; 128; 135];
    [226; 128; 136]; [226; 128; 137]; [226; 128; 138]; [226; 128; 168];
    [226; 128; 169]; [226; 128; 175]; [226; 129; 159]; [227; 128; 128] ]%nat.

Fixpoint trim_start (s : string) : string :=
  match s with
  | String c s1 =>
      if is_space c then trim_start s1
      else match s1 with
      | String c1 s2 =>
          if bool_decide (String c (String c1 "") ∈ utf8_spaces) then trim_start s2
          else match s2 with
          | String c2 s3 =>
              if bool_decide (String c (String c1 (String c2 "")) ∈ utf8_spaces)
              then trim_start s3 else s
          | EmptyString => s
          end
      | EmptyString => s
      end
  | EmptyString => s
  end.

Definition digit_value (c : ascii) : option Z :=
  let n := Z.of_nat (nat_of_ascii c) in
  if (48 <=? n) && (n <=? 57) then Some (n - 48)
  else if (97 <=? n) && (n <=? 122) then Some (n - 87)
  else if (65 <=? n) && (n <=? 90) then Some (n - 55)
  else None.

(** The longest prefix of digits below the radix, read left to right;
    [None] when there is no such digit. *)
Fixpoint read_digits (radix : Z) (acc : option Z) (s : string) : option Z :=
  match s with
  | String c s' =>
      match digit_value c with
      | Some d =>
          if d <? radix
          then read_digits radix (Some (default 0 acc * radix + d)) s'
          else acc
      | None => acc
      end
  | EmptyString => acc
  end.

Definition strip_sign (s : string) : Z * string :=
  match s with
  | String "-" s' => (-1, s')
  | String "+" s' => (1, s')
  | _ => (1, s)
  end.

Definition strip_hex (s : string) : Z * string :=
  match s with
  | String "0" (String "x" s') | String "0" (String "X" s') => (16, s')
  | _ => (10, s)
  end.

(** [None] is [NaN]. The result is the mathematical integer, which is the
    JavaScript number as long as it is below 2^53 in magnitude. *)
Definition parseInt (s : string) : option Z :=
  let '(sign, s1) := strip_sign (trim_start s) in
  let '(radix, s2) := strip_hex s1 in
  (λ n, sign * n) <$> read_digits radix None s2.

Record app_config := {
  name : string;
  version : string;
  port : option Z;
  environment : string;
  isProduction : bool;
  isDevelopment : bool }.

Record database_config := { url : string; ssl : bool; poolSize : option Z }.

Record security_config := { sessionSecret : string; corsOrigin : string }.

Record performance_config := { requestTimeout : option Z; bodyLimit : string }.

Record config_t := {
  app : app_config;
  database : database_config;
  security : security_config;
  performance : performance_config }.

(** A variable of the parsed environment; the schema leaves only
    [DATABASE_URL] possibly undefined, which reads as [""] here and is
    given its fallback by [||] in [config]. *)
Definition get (env : Env) (k : string) : string := default "" (env !! k).

Definition config (env : Env) : config_t :=
  {| app :=
       {| name := get env "APP_NAME";
          version := get env "APP_VERSION";
          port := parseInt (get env "PORT");
          environment := get env "NODE_ENV";
          isProduction := String.eqb (get env "NODE_ENV") "production";
          isDevelopment := String.eqb (get env "NODE_ENV") "development" |};
     database :=
       {| url := get env "DATABASE_URL";
          ssl := String.eqb (get env "DATABASE_SSL") "true";
          poolSize := parseInt (get env "DATABASE_POOL_SIZE") |};
     security :=
       {| sessionSecret := get env "SESSION_SECRET";
          corsOrigin := get env "CORS_ORIGIN" |};
     performance :=
       {| requestTimeout := parseInt (get env "REQUEST_TIMEOUT");
          bodyLimit := get env "BODY_LIMIT" |} |}.

(** Process start, [server/index.ts]: [env.ts] is evaluated when the
    module graph is loaded, before [registerRoutes] and [server.listen];
    an exception there ends the process. *)
Inductive process :=
  | Aborted (e : error)
  | Listening (cfg : config_t).

Definition start (penv : process_env) : process :=
  match parseEnv penv with
  | Throw e => Aborted e
  | Ok env => Listening (config env)
  end.



Definition variables : list string := fname <$> envSchema.

End Env.

(** ** The [bcrypt] package, as far as [routes.ts] relies on it *)

Module Bcrypt.

Section Bcrypt.
(** The expensive key schedule of version [2b]: from the cost, the salt
    text and the key, the 31 characters that end the hash string. *)
Variable eks : Z → string → string → string.
(** [compare] against a string that is not a [2b] hash string (another
    version, or no hash string at all). *)
Variable compare_other : string → string → bool.

(** Only the first 72 bytes of the password enter the key schedule. *)
Definition key_of (password : string) : string := substring 0 72 password.

Definition alphabet : string :=
  "./ABCDEFGHIJKLMNOPQRSTUVWXYZabcdefghijklmnopqrstuvwxyz0123456789".

Definition in_alphabet (c : ascii) : bool :=
  bool_decide (c ∈ list_ascii_of_string alphabet).

(** A salt is 16 bytes, written as 22 characters of which the last one
    carries four bits only. *)
Definition salt_text (s : string) : bool :=
  (String.length s =? 22)%nat
  && forallb in_alphabet (list_ascii_of_string s)
  && bool_decide (substring 21 1 s ∈ ["."; "O"; "e"; "u"]).

Definition digit (n : Z) : ascii := ascii_of_nat (Z.to_nat (48 + n)).

Definition two_digits (n : Z) : string :=
  String (digit (n / 10)) (String (digit (n mod 10)) "").

Definition read_two_digits (s : string) : option Z :=
  match s with
  | String a (String b "") =>
      let x := Z.of_nat (nat_of_ascii a) - 48 in
      let y := Z.of_nat (nat_of_ascii b) - 48 in
      if (0 <=? x) && (x <=? 9) && (0 <=? y) && (y <=? 9)
      then Some (10 * x + y) else None
  | _ => None
  end.

Definition setting (cost : Z) (salt : string) : string :=
  "$2b$" ++ two_digits cost ++ "$" ++ salt.

(** The cost and the salt a [2b] hash string starts with. *)
Definition read_setting (h : string) : option (Z * string) :=
  if String.eqb (substring 0 4 h) "$2b$" && String.eqb (substring 6 1 h) "$"
  then
    match read_two_digits (substring 4 2 h) with
    | Some cost =>
        let salt := substring 7 22 h in
        if (4 <=? cost) && (cost <=? 31) && salt_text salt
        then Some (cost, salt) else None
    | None => None
    end
  else None.

Definition crypt (password : string) (cost : Z) (salt : string) : string :=
  setting cost salt ++ eks cost salt (key_of password).

(** [bcrypt.hash(password, rounds)], the salt being the one [genSalt]
    draws. *)
Definition hash (password : string) (rounds : Z) (salt : string) : string :=
  crypt password rounds salt.

(** [bcrypt.compare(password, h)]: the password is hashed again under
    the setting read from [h], and the two strings are compared. *)
Definition compare (password h : string) : bool :=
  match read_setting h with
  | Some (cost, salt) => String.eqb (crypt password cost salt) h
  | None => compare_other password h
  end.

End Bcrypt.
End Bcrypt.

(** ** The relational store behind the Prisma client *)

Module Prisma.

Inductive model :=
  | User
  | Course
  | Classroom
  | StaffRequest
  | MasterRoleRequest
  | ResignationRequest.

#[global] Instance model_eq_dec : EqDecision model.
Proof. solve_decision. Defined.

Abbreviation row := (gmap string value).
Abbreviation table := (gmap Z row).
Abbreviation tables := (model → gmap Z row).

Inductive operation :=
  | Find (m : model) (id : Z)
  | Insert (m : model) (data : row)
  | Update (m : model) (id : Z) (data : row)
  | Delete (m : model) (id : Z).

(** [schema.prisma] is not among the sources, so what it declares is a
    parameter: which operations the column types, the required columns
    and the foreign keys with their referential actions let through, the
    columns it fills on insert and on update at a clock reading, and the
    relation fields an [include] attaches to a row. *)
Record schema := Schema {
  admits : tables → operation → bool;
  column_defaults : model → Z → row;
  updated_columns : model → Z → row;
  load : tables → model → object → row → row }.

(** The unique columns that [storage.ts] relies on: [findUnique] is
    called with [username] and with [email] on users. *)
Definition unique_columns (m : model) : list string :=
  match m with
  | User => ["username"; "email"]
  | _ => []
  end.

Record db := Db {
  connected : bool;
  rows : tables;
  sequence : model → Z }.

(** Data access: a state transformer over the store that may throw. *)
Definition M (A : Type) : Type := db → outcome A * db.

#[global] Instance M_ret : MRet M := λ A a s, (Ok a, s).

#[global] Instance M_bind : MBind M := λ A B f m s,
  match m s with
  | (Ok a, s') => f a s'
  | (Throw e, s') => (Throw e, s')
  end.

Definition throw {A} (e : error) : M A := λ s, (Throw e, s).

Definition lift {A} (o : outcome A) : M A := λ s, (o, s).

Definition guard (b : bool) (e : error) : M unit :=
  if b then mret () else throw e.

Definition get_db : M db := λ s, (Ok s, s).

Definition put_db (s : db) : M unit := λ _, (Ok (), s).

Definition unreachable : error := PrismaError "P1001".
Definition unique_violation : error := PrismaError "P2002".
Definition record_not_found : error := PrismaError "P2025".
Definition invalid_arguments : error := PrismaError "PrismaClientValidationError".

Definition connection : M tables := λ s,
  (if connected s then Ok (rows s) else Throw unreachable, s).

Definition has_string (r : row) (col v : string) : bool :=
  match r !! col with
  | Some (VStr s) => String.eqb s v
  | _ => false
  end.

Definition clashes (t : table) (cols : list string) (data : row) : bool :=
  existsb (λ col,
    match data !! col with
    | Some (VStr v) => existsb (λ kr, has_string kr.2 col v) (map_to_list t)
    | _ => false
    end) cols.

Definition ordering_key (col : string) (r : row) : Z :=
  match r !! col with
  | Some (VDate t) | Some (VNum t) => t
  | _ => 0
  end.

Inductive direction := Asc | Desc.

Definition before (col : string) (d : direction) (r1 r2 : row) : Prop :=
  match d with
  | Asc => ordering_key col r1 ≤ ordering_key col r2
  | Desc => ordering_key col r2 ≤ ordering_key col r1
  end.

#[global] Instance before_dec col d r1 r2 : Decision (before col d r1 r2).
Proof. destruct d; simpl; apply _. Defined.

Section Client.
Variable S : schema.

(** When the store carries an operation out. *)
Definition can_find (s : db) (m : model) (i : Z) : bool :=
  connected s && admits S (rows s) (Find m i).

Definition insert_key (s : db) (m : model) (data : row) : Z :=
  match data !! "id" with
  | Some (VNum i) => i
  | _ => sequence s m
  end.

Definition can_insert (s : db) (m : model) (data : row) : bool :=
  connected s && admits S (rows s) (Insert m data)
  && negb (clashes (rows s m) (unique_columns m) data)
  && bool_decide (rows s m !! insert_key s m data = None).

Definition update_key (i : Z) (data : row) : Z :=
  match data !! "id" with
  | Some (VNum j) => j
  | _ => i
  end.

Definition can_update (s : db) (m : model) (i : Z) (data : row) : bool :=
  connected s && admits S (rows s) (Update m i data)
  && bool_decide (is_Some (rows s m !! i))
  && negb (clashes (delete i (rows s m)) (unique_columns m) data)
  && bool_decide (delete i (rows s m) !! update_key i data = None).

Definition can_delete (s : db) (m : model) (i : Z) : bool :=
  connected s && admits S (rows s) (Delete m i)
  && bool_decide (is_Some (rows s m !! i)).

Definition with_relations (t : tables) (m : model) (include : object)
    (r : row) : row :=
  r ∪ load S t m include r.

(** [findMany({ include, orderBy })]; rows with equal keys come in the
    order the table lists them. *)
Definition findMany (m : model) (orderBy : string * direction)
    (include : object) : M (list row) :=
  t ← connection;
  mret (with_relations t m include <$>
        merge_sort (before orderBy.1 orderBy.2) (snd <$> map_to_list (t m))).

(** [findUnique({ where: { id }, include })]; a [NaN] id is [None]. *)
Definition findUnique (m : model) (id : option Z) (include : object)
    : M (option row) :=
  match id with
  | None => throw invalid_arguments
  | Some i =>
      t ← connection;
      guard (admits S t (Find m i)) invalid_arguments;;
      mret (with_relations t m include <$> t m !! i)
  end.

(** [findUnique({ where: { col: v } })] on a unique text column. *)
Definition findUniqueBy (m : model) (col : string) (v : value)
    : M (option row) :=
  match v with
  | VStr s =>
      t ← connection;
      mret ((λ x, x.2.2) <$>
            list_find (λ kr, has_string kr.2 col s = true) (map_to_list (t m)))
  | _ => throw invalid_arguments
  end.

(** [create({ data, include })]. The key is the one in [data] if there
    is one, and the next of the sequence otherwise. *)
Definition create (m : model) (data : row) (now : Z) (include : object)
    : M row :=
  t ← connection;
  guard (admits S t (Insert m data)) invalid_arguments;;
  guard (negb (clashes (t m) (unique_columns m) data)) unique_violation;;
  s ← get_db;
  let '(id, seq') :=
    match data !! "id" with
    | Some (VNum i) => (i, sequence s)
    | _ => (sequence s m, <[m := sequence s m + 1]> (sequence s))
    end in
  guard (bool_decide (t m !! id = None)) unique_violation;;
  let r := <["id" := VNum id]> (data ∪ column_defaults S m now) in
  let t' := <[m := <[id := r]> (t m)]> t in
  put_db {| connected := connected s; rows := t'; sequence := seq' |};;
  mret (with_relations t' m include r).

(** [update({ where: { id }, data, include })]: the columns of [data]
    replace the stored ones; a missing row is an error. *)
Definition update (m : model) (id : option Z) (data : row) (now : Z)
    (include : object) : M row :=
  match id with
  | None => throw invalid_arguments
  | Some i =>
      t ← connection;
      guard (admits S t (Update m i data)) invalid_arguments;;
      match t m !! i with
      | None => throw record_not_found
      | Some old =>
          let rest := delete i (t m) in
          let r := data ∪ updated_columns S m now ∪ old in
          let j := match data !! "id" with Some (VNum j) => j | _ => i end in
          guard (negb (clashes rest (unique_columns m) data)) unique_violation;;
          guard (bool_decide (rest !! j = None)) unique_violation;;
          s ← get_db;
          let t' := <[m := <[j := r]> rest]> t in
          put_db {| connected := connected s; rows := t';
                    sequence := sequence s |};;
          mret (with_relations t' m include r)
      end
  end.

(** [delete({ where: { id } })]: a missing row is an error. *)
Definition delete_ (m : model) (id : option Z) : M row :=
  match id with
  | None => throw invalid_arguments
  | Some i =>
      t ← connection;
      guard (admits S t (Delete m i)) invalid_arguments;;
      match t m !! i with
      | None => throw record_not_found
      | Some r =>
          s ← get_db;
          put_db {| connected := connected s;
                    rows := <[m := delete i (t m)]> t;
                    sequence := sequence s |};;
          mret r
      end
  end.

End Client.
End Prisma.

(** ** What the application takes from outside its sources *)

Record platform := Platform {
  is_email : string → bool;
  eks : Z → string → string → string;
  compare_other : string → string → bool;
  prisma : Prisma.schema }.

(** ** [server/storage.ts] *)

Module Storage.
Import Zod Prisma.

Definition flags (cols : list string) : value :=
  VObj (list_to_map ((λ c, (c, VBool true)) <$> cols)).

Definition select (cols : list string) : value :=
  VObj {[ "select" := flags cols ]}.

Definition including (o : object) : value := VObj {[ "include" := VObj o ]}.

Definition ordered (col dir : string) : value :=
  VObj {[ "orderBy" := VObj {[ col := VStr dir ]} ]}.

Definition person : value :=
  select ["id"; "username"; "firstName"; "lastName"].

Definition member : value :=
  select ["id"; "username"; "firstName"; "lastName"; "role"].

Definition academy : value := select ["id"; "title"; "academyName"].

Section Storage.
Variable P : platform.
Let S := prisma P.

(** *** User operations *)

Definition getUsers : M (list row) :=
  findMany S User ("createdAt", Desc) ∅.

Definition getUserById (id : option Z) : M (option row) :=
  findUnique S User id
    {[ "mentorProfiles" := VBool true;
       "courses" := VBool true;
       "enrollments" := including {[ "course" := VBool true ]} ]}.

Definition getUserByUsername (username : value) : M (option row) :=
  findUniqueBy User "username" username.

Definition getUserByEmail (email : value) : M (option row) :=
  findUniqueBy User "email" email.

Definition createUser (userData : object) (now : Z) : M row :=
  validatedData ← lift (parse (insertUserSchema (is_email P)) userData);
  create S User validatedData now ∅.

(** *** Course operations *)

Definition getCourses : M (list row) :=
  findMany S Course ("createdAt", Desc)
    {[ "mentor" := person;
       "enrollments" := VBool true;
       "_count" := select ["enrollments"; "reviews"] ]}.

Definition getCourseById (id : option Z) : M (option row) :=
  findUnique S Course id
    {[ "mentor" := person;
       "enrollments" := including {[ "user" := person ]};
       "reviews" := including {[ "user" := person ]};
       "lessons" := ordered "sortOrder" "asc" ]}.

Definition createCourse (courseData : object) (now : Z) : M row :=
  validatedData ← lift (parse insertCourseSchema courseData);
  create S Course validatedData now {[ "mentor" := person ]}.

Definition updateCourse (id : option Z) (courseData : object) (now : Z)
    : M row :=
  update S Course id courseData now {[ "mentor" := person ]}.

Definition deleteCourse (id : option Z) : M row :=
  delete_ S Course id.

(** *** Classroom operations *)

Definition getClassrooms : M (list row) :=
  findMany S Classroom ("createdAt", Desc)
    {[ "master" := person;
       "memberships" := including {[ "user" := member ]};
       "_count" := select ["memberships"; "liveSessions"] ]}.

Definition getClassroomById (id : option Z) : M (option row) :=
  findUnique S Classroom id
    {[ "master" := person;
       "memberships" := including {[ "user" := member ]};
       "liveSessions" :=
         VObj {[ "include" := VObj {[ "mentor" := person ]};
                 "orderBy" := VObj {[ "scheduledAt" := VStr "desc" ]} ]};
       "schedules" :=
         VObj {[ "include" := VObj {[ "instructor" := person ]};
                 "orderBy" := VObj {[ "dayOfWeek" := VStr "asc" ]} ]} ]}.

Definition createClassroom (classroomData : object) (now : Z) : M row :=
  validatedData ← lift (parse insertClassroomSchema classroomData);
  create S Classroom validatedData now {[ "master" := person ]}.

Definition updateClassroom (id : option Z) (classroomData : object) (now : Z)
    : M row :=
  update S Classroom id classroomData now {[ "master" := person ]}.

Definition deleteClassroom (id : option Z) : M row :=
  delete_ S Classroom id.

(** There is no [getClassroomBySlug] in [storage.ts], and the module
    re-exports nothing of that name: [storage.getClassroomBySlug] is
    [undefined]. *)
Definition getClassroomBySlug : option (string → M (option row)) := None.

(** Calling a member of the [storage] namespace. *)
Definition call {A B} (member : option (A → M B)) (name : string) (a : A)
    : M B :=
  match member with
  | Some f => f a
  | None => throw (TypeError ("storage." ++ name ++ " is not a function"))
  end.

(** *** Staff request operations *)

Definition getStaffRequestById (id : option Z) : M (option row) :=
  findUnique S StaffRequest id
    {[ "mentor" := person; "classroom" := academy; "reviewer" := person ]}.

Definition staffRequestUpdate (requestData : object) (now : Z) : object :=
  if truthy (requestData !! "status") && truthy (requestData !! "reviewedBy")
  then <["reviewedAt" := VDate now]> requestData
  else requestData.

Definition updateStaffRequest (id : option Z) (requestData : object)
    (now : Z) : M row :=
  let updateData := staffRequestUpdate requestData now in
  update S StaffRequest id updateData now
    {[ "mentor" := person; "classroom" := academy; "reviewer" := person ]}.

(** *** Master role request operations *)

Definition getMasterRoleRequestById (id : option Z) : M (option row) :=
  findUnique S MasterRoleRequest id
    {[ "mentor" := person; "reviewer" := person ]}.

Definition masterRoleRequestUpdate (requestData : object) (now : Z)
    : object :=
  let updateData :=
    match requestData !! "status" with
    | Some (VStr "approved") => <["approvedAt" := VDate now]> requestData
    | Some (VStr "rejected") => <["rejectedAt" := VDate now]> requestData
    | _ => requestData
    end in
  if truthy (requestData !! "reviewedBy")
  then <["reviewedAt" := VDate now]> updateData
  else updateData.

Definition updateMasterRoleRequest (id : option Z) (requestData : object)
    (now : Z) : M row :=
  let updateData := masterRoleRequestUpdate requestData now in
  update S MasterRoleRequest id updateData now
    {[ "mentor" := person; "reviewer" := person ]}.

(** *** Resignation request operations *)

Definition getResignationRequestById (id : option Z) : M (option row) :=
  findUnique S ResignationRequest id
    {[ "mentor" := person; "reviewer" := person ]}.

Definition resignationRequestUpdate (requestData : object) (now : Z)
    : object :=
  if truthy (requestData !! "reviewedBy")
  then <["reviewedAt" := VDate now]> requestData
  else requestData.

Definition updateResignationRequest (id : option Z) (requestData : object)
    (now : Z) : M row :=
  let updateData := resignationRequestUpdate requestData now in
  update S ResignationRequest id updateData now
    {[ "mentor" := person; "reviewer" := person ]}.

End Storage.
End Storage.

(** ** [server/routes.ts] *)

Module Routes.
Import Zod Prisma Storage.

Record response := Response { status : Z; body : value }.

(** What a handler reads from the process it runs in: the clock, the salt
    that [bcrypt] draws, the readings [/health] reports (the memory
    figures already rounded to megabytes) and the configuration. *)
Record context := Context {
  now : Z;
  salt : string;
  timestamp : string;
  uptime : value;
  heapUsed : value;
  heapTotal : value;
  cfg : Env.config_t }.

Inductive request :=
  | GET_health
  | GET_ready
  | GET_users_id (id : string)
  | GET_users
  | POST_users (body : object)
  | POST_auth_register (body : object)
  | POST_auth_login (body : object)
  | GET_courses
  | GET_courses_id (id : string)
  | POST_courses (body : object)
  | PATCH_courses_id (id : string) (body : object)
  | DELETE_courses_id (id : string)
  | GET_classrooms
  | GET_classrooms_slug (slug : string)
  | GET_classrooms_id (id : string)
  | POST_classrooms (body : object)
  | PATCH_classrooms_id (id : string) (body : object)
  | DELETE_classrooms_id (id : string)
  | GET_staff_requests_id (id : string)
  | PATCH_staff_requests_id_status (id : string) (body : object)
  | GET_master_role_requests_id (id : string)
  | PATCH_master_role_requests_id_status (id : string) (body : object)
  | GET_resignation_requests_id (id : string)
  | PATCH_resignation_requests_id_status (id : string) (body : object).

(** [res.status(code).json(body)]; [res.json(body)] answers 200. *)
Definition json (code : Z) (b : value) : response := Response code b.

Definition failure (code : Z) (msg : string) : response :=
  json code (VObj {[ "error" := VStr msg ]}).

Definition message (msg : string) : value := VObj {[ "message" := VStr msg ]}.

Definition rows_json (l : list row) : value := VArr (VObj <$> l).

(** [try { ... } catch (error) { ... }] around a handler body. *)
Definition try_catch (body : M response) (handler : error → response)
    : db → response * db :=
  λ s,
    match body s with
    | (Ok r, s') => (r, s')
    | (Throw e, s') => (handler e, s')
    end.

Definition internal_error (_ : error) : response :=
  failure 500 "Internal server error".

(** [if (error instanceof z.ZodError) ... 400 ...] then the 500. *)
Definition zod_or_internal (msg : string) (e : error) : response :=
  match e with
  | ZodError issues =>
      json 400 (VObj {[ "error" := VStr msg; "details" := VArr (VStr <$> issues) ]})
  | _ => failure 500 "Internal server error"
  end.

(** A field that validation has established to be a string. *)
Definition text (o : object) (k : string) : string :=
  match o !! k with
  | Some (VStr s) => s
  | _ => ""
  end.

Section Routes.
Variable P : platform.

Definition hashPassword (password : string) (salt : string) : string :=
  let saltRounds := 10 in
  Bcrypt.hash (eks P) password saltRounds salt.

(** [bcrypt.compare] rejects when an argument is not a string. *)
Definition verifyPassword (password : value) (hash : option value)
    : M bool :=
  match password, hash with
  | VStr p, Some (VStr h) =>
      mret (Bcrypt.compare (eks P) (compare_other P) p h)
  | _, _ => throw (Error "data and hash arguments required")
  end.

Definition found (what : string) (x : option row) : response :=
  match x with
  | None => failure 404 (what ++ " not found")
  | Some r => json 200 (VObj r)
  end.

Definition health (c : context) : response :=
  let healthStatus : object :=
    {[ "status" := VStr "healthy";
       "timestamp" := VStr (timestamp c);
       "environment" := VStr (Env.environment (Env.app (cfg c)));
       "version" := VStr (Env.version (Env.app (cfg c)));
       "uptime" := uptime c;
       "memory" := VObj {[ "used" := heapUsed c; "total" := heapTotal c ]} ]} in
  json 200 (VObj healthStatus).

(** The answers of a registration and of a login that went through, the
    password taken out of the user: [const { password, ...userResponse }]. *)
Definition registered (user : row) : response :=
  let userResponse := rest "password" user in
  json 201
    (VObj {[ "message" := VStr "User registered successfully";
             "user" := VObj userResponse ]}).

Definition logged_in (user : row) : response :=
  let userResponse := rest "password" user in
  json 200
    (VObj {[ "message" := VStr "Login successful";
             "user" := VObj userResponse ]}).

(** [{ ...userData, role: role || "student" }], where
    [const { role, ...userData } = req.body]. *)
Definition registration (body : object) : object :=
  let role := body !! "role" in
  let userData := rest "role" body in
  <["role" := or_else role (VStr "student")]> userData.

Definition register (c : context) (body : object) : M response :=
  validatedData ←
    lift (parse (insertUserSchema (is_email P)) (registration body));
  existingUser ← getUserByEmail (VStr (text validatedData "email"));
  match existingUser with
  | Some _ => mret (failure 409 "User already exists with this email")
  | None =>
      let hashedPassword :=
        hashPassword (text validatedData "password") (salt c) in
      user ← createUser P (<["password" := VStr hashedPassword]> validatedData)
               (now c);
      mret (registered user)
  end.

Definition login (body : object) : M response :=
  let email := body !! "email" in
  let password := body !! "password" in
  match email, password with
  | Some email, Some password =>
      if negb (truthy (Some email)) || negb (truthy (Some password))
      then mret (failure 400 "Email and password are required")
      else
        user ← getUserByEmail email;
        match user with
        | None => mret (failure 401 "Invalid credentials")
        | Some user =>
            isValidPassword ← verifyPassword password (user !! "password");
            if negb isValidPassword
            then mret (failure 401 "Invalid credentials")
            else mret (logged_in user)
        end
  | _, _ => mret (failure 400 "Email and password are required")
  end.

(** One request, from the route table of [registerRoutes]. *)
Definition handle (c : context) (r : request) : db → response * db :=
  match r with
  | GET_health => λ s, (health c, s)
  | GET_ready =>
      try_catch
        (_ ← getUsers P; mret (json 200 (VObj {[ "status" := VStr "ready" ]})))
        (λ _, json 503 (VObj {[ "status" := VStr "not ready" ]}))
  | GET_users_id id =>
      try_catch
        (user ← getUserById P (Env.parseInt id); mret (found "User" user))
        internal_error
  | GET_users =>
      try_catch (users ← getUsers P; mret (json 200 (rows_json users)))
        internal_error
  | POST_users body =>
      try_catch
        (userData ← lift (parse (insertUserSchema (is_email P)) body);
         user ← createUser P userData (now c);
         mret (json 201 (VObj user)))
        (zod_or_internal "Invalid user data")
  | POST_auth_register body =>
      try_catch (register c body) (zod_or_internal "Invalid registration data")
  | POST_auth_login body => try_catch (login body) internal_error
  | GET_courses =>
      try_catch (courses ← getCourses P; mret (json 200 (rows_json courses)))
        internal_error
  | GET_courses_id id =>
      try_catch
        (course ← getCourseById P (Env.parseInt id); mret (found "Course" course))
        internal_error
  | POST_courses body =>
      try_catch
        (courseData ← lift (parse insertCourseSchema body);
         course ← createCourse P courseData (now c);
         mret (json 201 (VObj course)))
        (zod_or_internal "Invalid course data")
  | PATCH_courses_id id body =>
      try_catch
        (course ← updateCourse P (Env.parseInt id) body (now c);
         mret (json 200 (VObj course)))
        internal_error
  | DELETE_courses_id id =>
      try_catch
        (_ ← deleteCourse P (Env.parseInt id);
         mret (json 200 (message "Course deleted successfully")))
        internal_error
  | GET_classrooms =>
      try_catch
        (classrooms ← getClassrooms P; mret (json 200 (rows_json classrooms)))
        internal_error
  | GET_classrooms_slug slug =>
      try_catch
        (classroom ← call getClassroomBySlug "getClassroomBySlug" slug;
         mret (match classroom with
               | None => failure 404 "Academy not found"
               | Some r => json 200 (VObj r)
               end))
        internal_error
  | GET_classrooms_id id =>
      try_catch
        (classroom ← getClassroomById P (Env.parseInt id);
         mret (found "Classroom" classroom))
        internal_error
  | POST_classrooms body =>
      try_catch
        (classroomData ← lift (parse insertClassroomSchema body);
         classroom ← createClassroom P classroomData (now c);
         mret (json 201 (VObj classroom)))
        (zod_or_internal "Invalid classroom data")
  | PATCH_classrooms_id id body =>
      try_catch
        (classroom ← updateClassroom P (Env.parseInt id) body (now c);
         mret (json 200 (VObj classroom)))
        internal_error
  | DELETE_classrooms_id id =>
      try_catch
        (_ ← deleteClassroom P (Env.parseInt id);
         mret (json 200 (message "Classroom deleted successfully")))
        internal_error
  | GET_staff_requests_id id =>
      try_catch
        (request ← getStaffRequestById P (Env.parseInt id);
         mret (found "Staff request" request))
        internal_error
  | PATCH_staff_requests_id_status id body =>
      try_catch
        (request ← updateStaffRequest P (Env.parseInt id)
                     (pick ["status"; "reviewedBy"; "adminNotes"] body) (now c);
         mret (json 200 (VObj request)))
        internal_error
  | GET_master_role_requests_id id =>
      try_catch
        (request ← getMasterRoleRequestById P (Env.parseInt id);
         mret (found "Master role request" request))
        internal_error
  | PATCH_master_role_requests_id_status id body =>
      try_catch
        (request ← updateMasterRoleRequest P (Env.parseInt id)
                     (pick ["status"; "reviewedBy"; "adminNotes"] body) (now c);
         mret (json 200 (VObj request)))
        internal_error
  | GET_resignation_requests_id id =>
      try_catch
        (request ← getResignationRequestById P (Env.parseInt id);
         mret (found "Resignation request" request))
        internal_error
  | PATCH_resignation_requests_id_status id body =>
      try_catch
        (request ← updateResignationRequest P (Env.parseInt id)
                     (pick ["status"; "reviewedBy"; "masterNotes"] body) (now c);
         mret (json 200 (VObj request)))
        internal_error
  end.

End Routes.
End Routes.

(** ** The status-code policy *)

Module Policy.
Import Zod Prisma Storage Routes.

Inductive kind :=
  | Probe
  | Readiness
  | Read
  | Create
  | Update_
  | Delete_
  | Login.

Definition kind_of (r : request) : kind :=
  match r with
  | GET_health => Probe
  | GET_ready => Readiness
  | GET_users_id _ | GET_users | GET_courses | GET_courses_id _
  | GET_classrooms | GET_classrooms_slug _ | GET_classrooms_id _
  | GET_staff_requests_id _ | GET_master_role_requests_id _
  | GET_resignation_requests_id _ => Read
  | POST_users _ | POST_auth_register _ | POST_courses _
  | POST_classrooms _ => Create
  | POST_auth_login _ => Login
  | PATCH_courses_id _ _ | PATCH_classrooms_id _ _
  | PATCH_staff_requests_id_status _ _
  | PATCH_master_role_requests_id_status _ _
  | PATCH_resignation_requests_id_status _ _ => Update_
  | DELETE_courses_id _ | DELETE_classrooms_id _ => Delete_
  end.

(** What becomes of a request in a state of the store. *)
Inductive verdict :=
  | Succeeded
  | Empty
  | Invalid
  | Conflict
  | Denied
  | Failed.

(** The policy in the words of the specification: 200 for a read, an
    update or a delete that succeeds, 201 for a create that succeeds, 404
    for a lookup that finds no row, 400 for a validation failure, 500
    for every other failure. *)
Definition stated_status (k : kind) (v : verdict) : Z :=
  match v with
  | Succeeded => match k with Create => 201 | _ => 200 end
  | Empty => 404
  | Invalid => 400
  | Conflict | Denied | Failed => 500
  end.

(** The policy of the handlers: the same, but 409 for a registration
    with a taken email, 401 for a login that is turned away, and 503
    for a failed readiness probe. *)
Definition handler_status (k : kind) (v : verdict) : Z :=
  match v with
  | Conflict => 409
  | Denied => 401
  | Failed => match k with Readiness => 503 | _ => 500 end
  | _ => stated_status k v
  end.

Section Verdict.
Variable P : platform.
Let S := prisma P.

Definition lookup (s : db) (m : model) (id : string) : verdict :=
  match Env.parseInt id with
  | Some i =>
      if can_find S s m i
      then match rows s m !! i with Some _ => Succeeded | None => Empty end
      else Failed
  | None => Failed
  end.

Definition listing (s : db) : verdict :=
  if connected s then Succeeded else Failed.

Definition creation (s : db) (m : model) (sh : shape) (payload : object)
    : verdict :=
  if forallb (field_ok payload) sh
  then if can_insert S s m (parse_keys sh payload).2 then Succeeded else Failed
  else Invalid.

Definition change (s : db) (m : model) (id : string) (data : object)
    : verdict :=
  match Env.parseInt id with
  | Some i => if can_update S s m i data then Succeeded else Failed
  | None => Failed
  end.

Definition removal (s : db) (m : model) (id : string) : verdict :=
  match Env.parseInt id with
  | Some i => if can_delete S s m i then Succeeded else Failed
  | None => Failed
  end.

Definition with_email (s : db) (e : string) : option row :=
  (λ x, x.2.2) <$>
  list_find (λ kr, has_string kr.2 "email" e = true) (map_to_list (rows s User)).

Definition signing_up (c : context) (s : db) (payload : object) : verdict :=
  let sh := insertUserSchema (is_email P) in
  let input := registration payload in
  if forallb (field_ok input) sh
  then
    let data := (parse_keys sh input).2 in
    if negb (connected s) then Failed
    else match with_email s (text data "email") with
    | Some _ => Conflict
    | None =>
        let hashed := hashPassword P (text data "password") (salt c) in
        if can_insert S s User (<["password" := VStr hashed]> data)
        then Succeeded else Failed
    end
  else Invalid.

Definition signing_in (s : db) (payload : object) : verdict :=
  if truthy (payload !! "email") && truthy (payload !! "password")
  then
    match payload !! "email", payload !! "password" with
    | Some (VStr e), Some password =>
        if connected s
        then match with_email s e with
        | None => Denied
        | Some user =>
            match password, user !! "password" with
            | VStr p, Some (VStr h) =>
                if Bcrypt.compare (eks P) (compare_other P) p h
                then Succeeded else Denied
            | _, _ => Failed
            end
        end
        else Failed
    | _, _ => Failed
    end
  else Invalid.

(** The row a request names by its id, if it is stored. *)
Definition addressed (r : request) (s : db) : option row :=
  match r with
  | GET_users_id id => Env.parseInt id ≫= λ i, rows s User !! i
  | GET_courses_id id | PATCH_courses_id id _ | DELETE_courses_id id =>
      Env.parseInt id ≫= λ i, rows s Course !! i
  | GET_classrooms_id id | PATCH_classrooms_id id _
  | DELETE_classrooms_id id =>
      Env.parseInt id ≫= λ i, rows s Classroom !! i
  | GET_staff_requests_id id | PATCH_staff_requests_id_status id _ =>
      Env.parseInt id ≫= λ i, rows s StaffRequest !! i
  | GET_master_role_requests_id id
  | PATCH_master_role_requests_id_status id _ =>
      Env.parseInt id ≫= λ i, rows s MasterRoleRequest !! i
  | GET_resignation_requests_id id
  | PATCH_resignation_requests_id_status id _ =>
      Env.parseInt id ≫= λ i, rows s ResignationRequest !! i
  | _ => None
  end.

Definition verdict_of (c : context) (r : request) (s : db) : verdict :=
  match r with
  | GET_health => Succeeded
  | GET_ready | GET_users | GET_courses | GET_classrooms => listing s
  | GET_users_id id => lookup s User id
  | GET_courses_id id => lookup s Course id
  | GET_classrooms_id id => lookup s Classroom id
  | GET_staff_requests_id id => lookup s StaffRequest id
  | GET_master_role_requests_id id => lookup s MasterRoleRequest id
  | GET_resignation_requests_id id => lookup s ResignationRequest id
  | GET_classrooms_slug _ => Failed
  | POST_users payload =>
      creation s User (insertUserSchema (is_email P)) payload
  | POST_courses payload => creation s Course insertCourseSchema payload
  | POST_classrooms payload =>
      creation s Classroom insertClassroomSchema payload
  | POST_auth_register payload => signing_up c s payload
  | POST_auth_login payload => signing_in s payload
  | PATCH_courses_id id payload => change s Course id payload
  | PATCH_classrooms_id id payload => change s Classroom id payload
  | PATCH_staff_requests_id_status id payload =>
      change s StaffRequest id
        (staffRequestUpdate
           (pick ["status"; "reviewedBy"; "adminNotes"] payload) (now c))
  | PATCH_master_role_requests_id_status id payload =>
      change s MasterRoleRequest id
        (masterRoleRequestUpdate
           (pick ["status"; "reviewedBy"; "adminNotes"] payload) (now c))
  | PATCH_resignation_requests_id_status id payload =>
      change s ResignationRequest id
        (resignationRequestUpdate
           (pick ["status"; "reviewedBy"; "masterNotes"] payload) (now c))
  | DELETE_courses_id id => removal s Course id
  | DELETE_classrooms_id id => removal s Classroom id
  end.

End Verdict.
End Policy.

(** ** A platform and a store to run the handlers on *)

Module Fixtures.
Import Prisma Routes.

Definition has_at (s : string) : bool :=
  existsb (Ascii.eqb "@") (list_ascii_of_string s).

Definition request_models : list model :=
  [StaffRequest; MasterRoleRequest; ResignationRequest].

(** Every operation goes through, rows get their creation time and
    requests start out pending, no relation is attached, and the digest
    of a key is the key itself. *)
Definition plain : platform :=
  {| is_email := has_at;
     eks := λ _ _ key, key;
     compare_other := λ _ _, false;
     prisma :=
       {| admits := λ _ _, true;
          column_defaults := λ m t,
            if bool_decide (m ∈ request_models)
            then {[ "createdAt" := VDate t; "status" := VStr "pending" ]}
            else {[ "createdAt" := VDate t ]};
          updated_columns := λ _ _, ∅;
          load := λ _ _ _ _, ∅ |} |}.

Definition empty_db : db :=
  {| connected := true; rows := λ _, ∅; sequence := λ _, 1 |}.

Definition offline (s : db) : db :=
  {| connected := false; rows := rows s; sequence := sequence s |}.

Definition at_time (t : Z) (salt : string) : context :=
  {| now := t;
     salt := salt;
     timestamp := "2025-01-01T00:00:00.000Z";
     uptime := VNum 1;
     heapUsed := VNum 50;
     heapTotal := VNum 64;
     cfg := Env.config (default ∅ (match Env.parseEnv ∅ with Ok e => Some e | Throw _ => None end)) |}.

Definition ada : object :=
  {[ "username" := VStr "ada";
     "password" := VStr "s3cret";
     "email" := VStr "ada@example.org" ]}.

Definition a_salt : string := "abcdefghijklmnopqrstuu".

Definition seventy_two : string :=
  string_of_list_ascii (replicate 72 "a"%char).

(** The store after [ada] has registered. *)
Definition with_ada : db :=
  (handle plain (at_time 1000 a_salt) (POST_auth_register ada) empty_db).2.

Definition a_course : object :=
  {[ "title" := VStr "Harmony";
     "category" := VStr "theory";
     "level" := VStr "beginner";
     "tags" := VArr [VStr "chords"] ]}.

(** The store after [a_course] has been posted. *)
Definition with_course : db :=
  (handle plain (at_time 1000 a_salt) (POST_courses a_course) empty_db).2.




Definition academy_with_slug (slug : string) : object :=
  {[ "title" := VStr "Academy";
     "subject" := VStr "music";
     "level" := VStr "beginner";
     "customSlug" := VStr slug ]}.

(** Two classrooms created through [POST /api/classrooms], with the
    slugs [jazz] and [rock]. *)
Definition two_academies : db :=
  let c := at_time 1000 a_salt in
  let s1 := (handle plain c (POST_classrooms (academy_with_slug "jazz")) empty_db).2 in
  (handle plain c (POST_classrooms (academy_with_slug "rock")) s1).2.

End Fixtures.

(** ** More of the sources: ids in paths, the production check, the
    request log, and the request workflows *)

Module Digits.

Definition decimal_digit (c : ascii) : bool :=
  let n := Z.of_nat (nat_of_ascii c) in (48 <=? n) && (n <=? 57).

Definition decimal (s : string) : bool :=
  forallb decimal_digit (list_ascii_of_string s).

Definition starts_with_digit (s : string) : bool :=
  match s with
  | String c _ => decimal_digit c
  | EmptyString => false
  end.

End Digits.

(** *** [validateProductionEnv] of [server/env.ts] *)

Module Production.
Import Env.

(** The warnings that are printed; nothing is thrown. *)
Definition validateProductionEnv (env : Env) : list string :=
  if String.eqb (get env "NODE_ENV") "production"
  then
    (if String.eqb (get env "SESSION_SECRET")
          "fallback-secret-key-change-in-production"
     then ["SESSION_SECRET should be set to a secure random value"]
     else [])
    ++
    (if String.eqb (get env "CORS_ORIGIN") "*"
     then ["CORS_ORIGIN should be restricted to your domain in production"]
     else [])
  else [].

End Production.

(** *** The request log of [server/index.ts] *)

Module Logging.

(** JavaScript strings are lists of UTF-16 code units here. *)
Definition ascii_text (s : string) : list N :=
  N_of_ascii <$> list_ascii_of_string s.

Definition ellipsis : N := 8230.

Definition startsWith (s prefix : list N) : bool :=
  bool_decide (take (List.length prefix) s = prefix).

Section Logging.
(** [JSON.stringify], and a number inside a template literal. *)
Variable stringify : value → list N.
Variable show : Z → list N.

(** What the [finish] listener hands to [log], if anything. *)
Definition logLine (method path : list N) (statusCode duration : Z)
    (capturedJsonResponse : option value) : option (list N) :=
  if startsWith path (ascii_text "/api")
  then
    let line :=
      (method ++ ascii_text " " ++ path ++ ascii_text " " ++ show statusCode
       ++ ascii_text " in " ++ show duration ++ ascii_text "ms")%list in
    let line :=
      match capturedJsonResponse with
      | Some bodyJson =>
          if truthy capturedJsonResponse
          then (line ++ ascii_text " :: " ++ stringify bodyJson)%list
          else line
      | None => line
      end in
    Some (if (80 <? List.length line)%nat
          then (take 79 line ++ [ellipsis])%list
          else line)
  else None.

End Logging.
End Logging.

(** *** Request workflows: more of [storage.ts] and [routes.ts] *)

Module Workflow.
Import Prisma Storage Routes.

(** [where: { col: v, ... }] with scalar values. *)
Definition scalar_eqb (x : option value) (v : value) : bool :=
  match x, v with
  | Some (VNum a), VNum b => a =? b
  | Some (VStr a), VStr b => String.eqb a b
  | Some (VBool a), VBool b => Bool.eqb a b
  | Some (VDate a), VDate b => a =? b
  | Some VNull, VNull => true
  | _, _ => false
  end.

Definition matches (conditions : list (string * value)) (r : row) : bool :=
  forallb (λ kv, scalar_eqb (r !! kv.1) kv.2) conditions.

(** [if (x) where.col = x], for a number and for a text. *)
Definition number_filter (col : string) (x : option Z) : list (string * value) :=
  match x with
  | Some n => if truthy (Some (VNum n)) then [(col, VNum n)] else []
  | None => []
  end.

Definition text_filter (col : string) (x : option string) : list (string * value) :=
  match x with
  | Some t => if truthy (Some (VStr t)) then [(col, VStr t)] else []
  | None => []
  end.

(** [q ? parseInt(q as string) : undefined] on a query parameter. *)
Definition number_param (q : option string) : option Z :=
  match q with
  | Some t => if truthy (Some (VStr t)) then Env.parseInt t else None
  | None => None
  end.

Section Workflow.
Variable P : platform.
Let S := prisma P.

(** [findMany({ where, include, orderBy })]. *)
Definition findManyWhere (m : model) (conditions : list (string * value))
    (orderBy : string * direction) (include : object) : M (list row) :=
  t ← connection;
  mret (with_relations S t m include <$>
        merge_sort (before orderBy.1 orderBy.2)
          (filter (λ r, matches conditions r = true) (map_to_list (t m)).*2)).

Definition getResignationRequests (classroomId mentorId : option Z)
    (status : option string) : M (list row) :=
  let conditions :=
    (number_filter "classroomId" classroomId
     ++ number_filter "mentorId" mentorId
     ++ text_filter "status" status)%list in
  findManyWhere ResignationRequest conditions ("createdAt", Desc)
    {[ "mentor" := person; "reviewer" := person ]}.

Definition createStaffRequest (requestData : object) (now : Z) : M row :=
  create S StaffRequest requestData now
    {[ "mentor" := person; "classroom" := academy ]}.

Definition createMasterRoleRequest (requestData : object) (now : Z) : M row :=
  create S MasterRoleRequest requestData now {[ "mentor" := person ]}.

(** [GET /api/resignation-requests] *)
Definition GET_resignation_requests (query : gmap string string)
    : db → response * db :=
  try_catch
    (requests ← getResignationRequests
                  (number_param (query !! "classroomId"))
                  (number_param (query !! "mentorId"))
                  (query !! "status");
     mret (json 200 (rows_json requests)))
    internal_error.

(** [GET /api/mentors/:mentorId/resignation-requests] *)
Definition GET_mentors_mentorId_resignation_requests (mentorId : string)
    : db → response * db :=
  try_catch
    (match Env.parseInt mentorId with
     | None => mret (failure 400 "Invalid mentor ID")
     | Some mentorId =>
         requests ← getResignationRequests None (Some mentorId) None;
         mret (json 200 (rows_json requests))
     end)
    internal_error.

(** [POST /api/staff-requests] *)
Definition POST_staff_requests (c : context) (requestData : object)
    : db → response * db :=
  try_catch
    (request ← createStaffRequest requestData (now c);
     mret (json 201 (VObj request)))
    internal_error.

Definition master_role_fields : list string :=
  ["mentorId"; "experience"; "qualifications"; "motivation"; "portfolio"].

(** [POST /api/master-role-requests] *)
Definition POST_master_role_requests (c : context) (requestData : object)
    : db → response * db :=
  try_catch
    (if truthy (requestData !! "reason")
        || truthy (requestData !! "plannedClassrooms")
        || truthy (requestData !! "additionalQualifications")
     then mret (failure 400
       "Invalid field names. Expected: mentorId, experience, qualifications, motivation. Received fields that belong to different request types.")
     else if negb (truthy (requestData !! "mentorId"))
             || negb (truthy (requestData !! "experience"))
             || negb (truthy (requestData !! "qualifications"))
             || negb (truthy (requestData !! "motivation"))
     then mret (failure 400
       "Missing required fields: mentorId, experience, qualifications, motivation")
     else
       let validRequestData := pick master_role_fields requestData in
       request ← createMasterRoleRequest validRequestData (now c);
       mret (json 201 (VObj request)))
    internal_error.

End Workflow.
End Workflow.

Module MoreFixtures.
Import Prisma Routes Workflow Fixtures.

Definition a_motivation : object :=
  {[ "mentorId" := VNum 2;
     "experience" := VStr "ten years of teaching";
     "qualifications" := VStr "conservatory";
     "motivation" := VStr "to open an academy";
     "status" := VStr "approved";
     "reviewedBy" := VNum 2 ]}.

(** Two resignation requests, of the mentors 5 and 6. *)
Definition resignations : db :=
  {| connected := true;
     rows :=
       <[ResignationRequest :=
           {[ 1 := {[ "id" := VNum 1; "mentorId" := VNum 5;
                      "createdAt" := VDate 10; "status" := VStr "pending" ]};
              2 := {[ "id" := VNum 2; "mentorId" := VNum 6;
                      "createdAt" := VDate 20; "status" := VStr "pending" ]} ]}]>
         (λ _, ∅);
     sequence := λ _, 3 |}.

Definition production : gmap string string :=
  {[ "NODE_ENV" := "production" ]}.

End MoreFixtures.

(** * Properties *)

(** ** Schema parsing *)

Module ZodFacts.
Import Zod.

Lemma parse_keys_issues sh input :
  (parse_keys sh input).1 = [] ↔ forallb (field_ok input) sh = true.
Proof.
  induction sh as [|f sh IH]; simpl; [done|].
  unfold field_ok at 1.
  destruct (parse_keys sh input) as [issues out]; simpl in *.
  destruct (parse_field input f) as [path|[v|]]; simpl; [|done..].
  split; [discriminate|]. intros [=].
Qed.

Lemma parse_keys_absent sh input k :
  k ∉ fname <$> sh → (parse_keys sh input).2 !! k = None.
Proof.
  induction sh as [|f sh IH]; simpl; intros Hk; [done|].
  apply not_elem_of_cons in Hk as [Hne Hk].
  specialize (IH Hk).
  destruct (parse_keys sh input) as [issues out]; simpl in *.
  destruct (parse_field input f) as [path|[v|]]; simpl; [done| |done].
  by rewrite lookup_insert_ne.
Qed.

Lemma parse_keys_lookup sh input f :
  NoDup (fname <$> sh) → f ∈ sh →
  (parse_keys sh input).2 !! fname f = field_value input f.
Proof.
  induction sh as [|g sh IH]; simpl; intros Hnd Hf; [by apply elem_of_nil in Hf|].
  apply NoDup_cons in Hnd as [Hg Hnd].
  apply elem_of_cons in Hf as [->|Hf].
  - pose proof (parse_keys_absent sh input (fname g) Hg) as Habs.
    unfold field_value.
    destruct (parse_keys sh input) as [issues out]; simpl in *.
    destruct (parse_field input g) as [path|[v|]]; simpl; [done| |done].
    by rewrite lookup_insert_eq.
  - specialize (IH Hnd Hf).
    assert (fname g ≠ fname f) as Hne.
    { intros Heq. apply Hg. rewrite Heq. by apply list_elem_of_fmap_2. }
    destruct (parse_keys sh input) as [issues out]; simpl in *.
    destruct (parse_field input g) as [path|[v|]]; simpl; [done| |done].
    by rewrite lookup_insert_ne.
Qed.

Lemma parse_Ok sh input out :
  parse sh input = Ok out ↔
  forallb (field_ok input) sh = true ∧ out = (parse_keys sh input).2.
Proof.
  unfold parse. rewrite <- parse_keys_issues.
  destruct (parse_keys sh input) as [[|i issues] o]; simpl; split.
  - intros [= <-]. done.
  - intros [_ ->]. done.
  - discriminate.
  - intros [[=] _].
Qed.

Lemma parse_Throw sh input e :
  parse sh input = Throw e →
  forallb (field_ok input) sh = false ∧ ∃ issues, e = ZodError issues.
Proof.
  unfold parse. intros H.
  destruct (forallb (field_ok input) sh) eqn:Hall.
  - apply parse_keys_issues in Hall.
    destruct (parse_keys sh input) as [[|i issues] o]; simpl in *; congruence.
  - split; [done|].
    destruct (parse_keys sh input) as [[|i issues] o]; simplify_eq; eauto.
Qed.

(** A key that was submitted with an accepted value is kept as it is; a
    key that was left out holds its default when one is declared, and is
    left out otherwise. *)
Lemma parse_field_value sh input out f :
  NoDup (fname <$> sh) → f ∈ sh → parse sh input = Ok out →
  out !! fname f =
    match input !! fname f, fpres f with
    | Some v, _ => Some v
    | None, Default d => Some d
    | None, _ => None
    end.
Proof.
  intros Hnd Hf [Hall ->]%parse_Ok.
  rewrite parse_keys_lookup by done.
  rewrite forallb_forall in Hall.
  specialize (Hall f (proj1 (list_elem_of_In _ _) Hf)).
  unfold field_ok, field_value, parse_field in *.
  destruct (input !! fname f) as [v|], (fpres f) as [| |d];
    try destruct (check _ _); done.
Qed.

Lemma parse_dom sh input out k :
  parse sh input = Ok out → k ∉ fname <$> sh → out !! k = None.
Proof. intros [_ ->]%parse_Ok Hk. by apply parse_keys_absent. Qed.

Lemma parse_settled sh o :
  NoDup (fname <$> sh) → settled sh o → parse sh o = Ok o.
Proof.
  intros Hnd [Hdom Hfields]. apply parse_Ok.
  assert (∀ f, f ∈ sh → parse_field o f = inr (o !! fname f)) as Hpf.
  { intros f Hf. specialize (Hfields f Hf). unfold parse_field.
    destruct (o !! fname f) as [v|]; [by rewrite Hfields|by rewrite Hfields]. }
  split.
  - apply forallb_forall. intros f Hf%list_elem_of_In.
    unfold field_ok. by rewrite Hpf.
  - apply map_eq. intros k.
    destruct (decide (k ∈ fname <$> sh)) as [Hk|Hk].
    + apply list_elem_of_fmap in Hk as (f & -> & Hf).
      rewrite parse_keys_lookup by done. unfold field_value. by rewrite Hpf.
    + rewrite parse_keys_absent by done.
      destruct (o !! k) eqn:Hok; [|done].
      destruct Hk. apply Hdom. by eexists.
Qed.

Lemma parsed_settled sh input out :
  NoDup (fname <$> sh) → parse sh input = Ok out → settled sh out.
Proof.
  intros Hnd Hparse. split.
  - intros k [v Hv]. destruct (decide (k ∈ fname <$> sh)); [done|].
    by rewrite (parse_dom _ _ _ _ Hparse) in Hv.
  - intros f Hf. pose proof Hparse as [Hall ->]%parse_Ok.
    rewrite parse_keys_lookup by done.
    rewrite forallb_forall in Hall.
    specialize (Hall f (proj1 (list_elem_of_In _ _) Hf)).
    unfold field_ok, field_value, parse_field in *.
    destruct (input !! fname f) as [v|], (fpres f) as [| |d];
      try destruct (check _ _) eqn:Hc; done.
Qed.

Lemma settled_insert sh o f v :
  NoDup (fname <$> sh) → settled sh o → f ∈ sh → check (ftype f) v = true →
  settled sh (<[fname f := v]> o).
Proof.
  intros Hnd [Hdom Hfields] Hf Hv. split.
  - intros k. destruct (decide (fname f = k)) as [<-|Hne].
    + intros _. by apply list_elem_of_fmap_2.
    + rewrite lookup_insert_ne by done. apply Hdom.
  - intros g Hg. destruct (decide (fname f = fname g)) as [Heq|Hne].
    + assert (f = g) as <-.
      { apply list_elem_of_lookup in Hf as [i Hi], Hg as [j Hj].
        assert (i = j) as <-; [|congruence].
        eapply NoDup_lookup; [exact Hnd| |]; rewrite list_lookup_fmap.
        - by rewrite Hi.
        - rewrite Hj. simpl. by rewrite Heq. }
      by rewrite lookup_insert_eq.
    + rewrite lookup_insert_ne by done. by apply Hfields.
Qed.

(** Parsing what was parsed changes nothing. *)
Lemma parse_again sh input out :
  NoDup (fname <$> sh) → parse sh input = Ok out → parse sh out = Ok out.
Proof. intros Hnd Hparse. eapply parse_settled, parsed_settled; eauto. Qed.

End ZodFacts.

(** ** The environment *)

Module EnvFacts.
Import Zod ZodFacts Env.



(** Looking a variable up in the schema finds the field of that name. *)
Lemma find_variable var :
  var ∈ variables →
  ∃ i f, list_find (λ g, fname g = var) envSchema = Some (i, f) ∧
         f ∈ envSchema ∧ fname f = var.
Proof.
  intros Hvar.
  destruct (list_find (λ g, fname g = var) envSchema) as [[i f]|] eqn:Hfind.
  - apply list_find_Some in Hfind as (Hi & Hf & _).
    exists i, f. split_and!; [done| |done].
    by eapply list_elem_of_lookup_2.
  - apply list_find_None in Hfind.
    apply list_elem_of_fmap in Hvar as (f & -> & Hf).
    rewrite Forall_forall in Hfind. by destruct (Hfind f Hf).
Qed.






(** A port that is no number does not stop the process: the schema takes
    any string, and [config] reads [NaN] from it. *)
Example start_with_PORT_abc :
  ∃ cfg, start {[ "PORT" := "abc" ]} = Listening cfg ∧ port (app cfg) = None.
Proof. eexists. split; by vm_compute. Qed.

End EnvFacts.

(** ** The store *)

Module PrismaFacts.
Import Prisma.

Lemma bind_Ok {A B} (m : M A) (f : A → M B) s a s' :
  m s = (Ok a, s') → (m ≫= f) s = f a s'.
Proof. unfold mbind, M_bind. by intros ->. Qed.

Lemma bind_Throw {A B} (m : M A) (f : A → M B) s e s' :
  m s = (Throw e, s') → (m ≫= f) s = (Throw e, s').
Proof. unfold mbind, M_bind. by intros ->. Qed.

Lemma connection_up s : connected s = true → connection s = (Ok (rows s), s).
Proof. unfold connection. by intros ->. Qed.

Lemma connection_down s :
  connected s = false → connection s = (Throw unreachable, s).
Proof. unfold connection. by intros ->. Qed.

Lemma guard_true e s : guard true e s = (Ok (), s).
Proof. done. Qed.

Lemma guard_false e s : guard false e s = (Throw e, s).
Proof. done. Qed.

(** Unfolds the monad on a state and computes as far as it goes. *)
Ltac run :=
  repeat first
    [ progress rewrite ?guard_true, ?guard_false
    | erewrite bind_Ok by (first [ by apply connection_up | reflexivity ])
    | erewrite bind_Throw by (first [ by apply connection_down | reflexivity ])
    | progress (unfold get_db, put_db, throw, lift; simpl) ].

(** Finding a row by a text column. *)
Lemma find_by_Some (t : table) col v j kr :
  list_find (λ kr, has_string kr.2 col v = true) (map_to_list t) = Some (j, kr) →
  t !! kr.1 = Some kr.2 ∧ has_string kr.2 col v = true.
Proof.
  intros (Hj & Hkr & _)%list_find_Some. split; [|done].
  apply list_elem_of_lookup_2 in Hj. destruct kr as [k r].
  by apply elem_of_map_to_list in Hj.
Qed.

Lemma find_by_None (t : table) col v :
  list_find (λ kr, has_string kr.2 col v = true) (map_to_list t) = None ↔
  ∀ i r, t !! i = Some r → has_string r col v = false.
Proof.
  rewrite list_find_None, Forall_forall. split.
  - intros Hall i r Hr. apply not_true_is_false.
    apply (Hall (i, r)). by apply elem_of_map_to_list.
  - intros Hall [i r] Hir%elem_of_map_to_list. simpl.
    by rewrite (Hall i r Hir).
Qed.

Lemma findUniqueBy_up m col v s :
  connected s = true →
  findUniqueBy m col (VStr v) s =
    ((Ok ((λ x, x.2.2) <$>
          list_find (λ kr, has_string kr.2 col v = true)
            (map_to_list (rows s m)))), s).
Proof. intros Hup. unfold findUniqueBy. by run. Qed.

Lemma findUniqueBy_down m col v s :
  connected s = false →
  ∃ e, findUniqueBy m col v s = (Throw e, s).
Proof.
  intros Hup. unfold findUniqueBy. destruct v; try by eexists.
  run. eauto.
Qed.

Lemma findUniqueBy_Throw m col v s e s' :
  findUniqueBy m col v s = (Throw e, s') → ∃ code, e = PrismaError code.
Proof.
  unfold findUniqueBy. destruct v; try (intros [= <- _]; by eexists).
  destruct (connected s) eqn:Hup; run; [done|].
  intros [= <- _]. by eexists.
Qed.

Lemma findUniqueBy_reads m col v s : (findUniqueBy m col v s).2 = s.
Proof.
  unfold findUniqueBy. destruct v; try done.
  destruct (connected s) eqn:Hup; by run.
Qed.

Lemma findUniqueBy_Some m col v s r s' :
  findUniqueBy m col v s = (Ok (Some r), s') →
  s' = s ∧ ∃ i w, v = VStr w ∧ rows s m !! i = Some r ∧ has_string r col w = true.
Proof.
  intros Hrun. pose proof (findUniqueBy_reads m col v s) as Hs.
  rewrite Hrun in Hs. simpl in Hs. subst s'. split; [done|].
  unfold findUniqueBy in Hrun. destruct v as [| | |w| | |]; try done.
  destruct (connected s) eqn:Hup; [|revert Hrun; by run].
  revert Hrun. run. intros [= Hfind].
  destruct (list_find _ _) as [[j kr]|] eqn:Hlf; [|done].
  apply find_by_Some in Hlf as [Hkr Hhas]. simpl in Hfind.
  injection Hfind as <-. eauto.
Qed.

Lemma findUniqueBy_None m col v s s' :
  findUniqueBy m col (VStr v) s = (Ok None, s') →
  connected s = true ∧
  ∀ i r, rows s m !! i = Some r → has_string r col v = false.
Proof.
  unfold findUniqueBy. destruct (connected s) eqn:Hup; run; [|done].
  intros [= Hfind _]. split; [done|].
  apply find_by_None. by destruct (list_find _ _).
Qed.

Section Client.
Variable S : schema.

(** What a successful insert has stored. *)
Lemma create_Ok m data now include s r s' :
  create S m data now include s = (Ok r, s') →
  ∃ id, rows s' m !! id =
          Some (<["id" := VNum id]> (data ∪ column_defaults S m now)) ∧
        rows s m !! id = None ∧
        (∀ j, j ≠ id → rows s' m !! j = rows s m !! j) ∧
        connected s' = connected s ∧ connected s = true ∧
        r = with_relations S (rows s') m include
              (<["id" := VNum id]> (data ∪ column_defaults S m now)).
Proof.
  unfold create. destruct (connected s) eqn:Hup; [|by run].
  run. destruct (admits S (rows s) (Insert m data)); run; [|done].
  destruct (clashes _ _ _); run; [done|].
  set (id := match data !! "id" with Some (VNum i) => i | _ => sequence s m end).
  assert (∃ seq', (match data !! "id" with
                   | Some (VNum i) => (i, sequence s)
                   | _ => (sequence s m, <[m := sequence s m + 1]> (sequence s))
                   end) = (id, seq')) as [seq' ->].
  { unfold id. destruct (data !! "id") as [[]|]; eauto. }
  destruct (rows s m !! id) eqn:Hfree; run; [done|].
  intros [= <- <-]. exists id. simpl. rewrite fn_lookup_insert.
  split_and!; try done.
  - apply lookup_insert_eq.
  - intros j Hj. by rewrite lookup_insert_ne.
Qed.

Lemma no_clash_without_unique_columns (t : table) data :
  clashes t [] data = false.
Proof. done. Qed.


Lemma update_missing m i data now include s :
  rows s m !! i = None →
  ∃ e, update S m (Some i) data now include s = (Throw e, s).
Proof.
  intros Hnone. unfold update.
  destruct (connected s) eqn:Hup; [|run; eauto].
  run. destruct (admits S (rows s) (Update m i data)); run; [|eauto].
  rewrite Hnone. run. eauto.
Qed.

Lemma update_NaN m data now include s :
  update S m None data now include s = (Throw invalid_arguments, s).
Proof. done. Qed.

Lemma delete_present m i s r :
  connected s = true →
  admits S (rows s) (Delete m i) = true →
  rows s m !! i = Some r →
  delete_ S m (Some i) s =
    (Ok r, {| connected := connected s;
              rows := <[m := delete i (rows s m)]> (rows s);
              sequence := sequence s |}).
Proof.
  intros Hup Hadm Hr. unfold delete_. run. rewrite Hadm. run.
  rewrite Hr. run. done.
Qed.

Lemma delete_fails m id s :
  (id ≫= λ i, rows s m !! i) = None →
  ∃ e, delete_ S m id s = (Throw e, s).
Proof.
  destruct id as [i|]; simpl; [|by eauto].
  intros Hnone. unfold delete_.
  destruct (connected s) eqn:Hup; [|run; eauto].
  run. destruct (admits S (rows s) (Delete m i)); run; [|eauto].
  rewrite Hnone. run. eauto.
Qed.

Lemma findUnique_up m i include s :
  connected s = true →
  admits S (rows s) (Find m i) = true →
  findUnique S m (Some i) include s =
    (Ok (with_relations S (rows s) m include <$> rows s m !! i), s).
Proof. intros Hup Hadm. unfold findUnique. run. rewrite Hadm. by run. Qed.

(** A read leaves the store as it is, whatever comes of it. *)
Lemma findUnique_reads m id include s : (findUnique S m id include s).2 = s.
Proof.
  unfold findUnique. destruct id as [i|]; [|done].
  destruct (connected s) eqn:Hup; [|by run].
  run. destruct (admits S (rows s) (Find m i)); by run.
Qed.


Lemma findUnique_NaN m include s :
  findUnique S m None include s = (Throw invalid_arguments, s).
Proof. done. Qed.

Lemma findMany_up m orderBy include s :
  connected s = true →
  ∃ l, findMany S m orderBy include s = (Ok l, s).
Proof. intros Hup. unfold findMany. run. eauto. Qed.

Lemma findMany_down m orderBy include s :
  connected s = false →
  findMany S m orderBy include s = (Throw unreachable, s).
Proof. intros Hup. unfold findMany. by run. Qed.

(** Each operation goes through exactly when the store carries it out. *)
Lemma findUnique_run m id include s :
  ∃ e, findUnique S m id include s =
    (match id with
     | Some i =>
         if can_find S s m i
         then Ok (with_relations S (rows s) m include <$> rows s m !! i)
         else Throw e
     | None => Throw e
     end, s).
Proof.
  unfold findUnique, can_find. destruct id as [i|]; [|by eexists].
  destruct (connected s) eqn:Hup; run; [|by eexists].
  destruct (admits S (rows s) (Find m i)); run; by exists invalid_arguments.
Qed.

Lemma create_run m data now include s :
  if can_insert S s m data
  then ∃ r s', create S m data now include s = (Ok r, s')
  else ∃ code, create S m data now include s = (Throw (PrismaError code), s).
Proof.
  unfold create, can_insert, insert_key.
  destruct (connected s) eqn:Hup; run; [|by eexists].
  destruct (admits S (rows s) (Insert m data)); run; [|by eexists].
  destruct (clashes _ _ _); run; [by eexists|].
  destruct (data !! "id") as [[| |i| | | |]|]; run;
    case_bool_decide as Hfree; run; by eauto.
Qed.

Lemma update_run m i data now include s :
  if can_update S s m i data
  then ∃ r s', update S m (Some i) data now include s = (Ok r, s')
  else ∃ e, update S m (Some i) data now include s = (Throw e, s).
Proof.
  unfold update, can_update, update_key.
  destruct (connected s) eqn:Hup; run; [|by eexists].
  destruct (admits S (rows s) (Update m i data)); run; [|by eexists].
  destruct (rows s m !! i) as [old|] eqn:Hold; run.
  2: { rewrite ?bool_decide_eq_false_2 by (by intros [? ?]). simpl. by eexists. }
  rewrite ?bool_decide_eq_true_2 by done. simpl.
  destruct (clashes _ _ _); run; [by eexists|].
  case_bool_decide as Hfree; run; by eauto.
Qed.

Lemma delete_run m i s :
  if can_delete S s m i
  then ∃ r s', delete_ S m (Some i) s = (Ok r, s')
  else ∃ e, delete_ S m (Some i) s = (Throw e, s).
Proof.
  unfold delete_, can_delete.
  destruct (connected s) eqn:Hup; run; [|by eexists].
  destruct (admits S (rows s) (Delete m i)); run; [|by eexists].
  destruct (rows s m !! i) as [r|] eqn:Hr; run.
  - rewrite ?bool_decide_eq_true_2 by done. by eauto.
  - rewrite ?bool_decide_eq_false_2 by (by intros [? ?]). by eexists.
Qed.

End Client.
End PrismaFacts.

(** ** Review of staff, master-role and resignation requests *)

Module RequestFacts.
Import Prisma PrismaFacts Storage.

Section Requests.
Variable P : platform.





End Requests.
End RequestFacts.

(** ** The probes and the slug route *)

Module ProbeFacts.
Import Prisma PrismaFacts Storage Routes.

Section Probes.
Variable P : platform.

Lemma getUsers_ok s : is_ok (getUsers P s).1 = connected s.
Proof.
  unfold getUsers. destruct (connected s) eqn:Hup.
  - by destruct (findMany_up (prisma P) User ("createdAt", Desc) ∅ s Hup) as [l ->].
  - by rewrite findMany_down.
Qed.

(** C9. [/health] answers 200 with a body whose status is healthy in
    every state of the store, reachable or not, and leaves the store
    alone; [/ready] answers 200 when listing the users succeeds, which it
    does exactly when the store is reachable, and 503 otherwise. *)
Theorem health_always_ready_when_users_list (c : context) (s : db) :
  (handle P c GET_health s).2 = s ∧
  status (handle P c GET_health s).1 = 200 ∧
  (∃ o, body (handle P c GET_health s).1 = VObj o ∧
        o !! "status" = Some (VStr "healthy")) ∧
  status (handle P c GET_ready s).1 =
    (if is_ok (getUsers P s).1 then 200 else 503) ∧
  is_ok (getUsers P s).1 = connected s.
Proof.
  split_and!; [done..| | |apply getUsers_ok].
  - eexists. split; [reflexivity|]. by simplify_map_eq.
  - simpl. unfold try_catch.
    destruct (connected s) eqn:Hup.
    + unfold getUsers.
      destruct (findMany_up (prisma P) User ("createdAt", Desc) ∅ s Hup) as [l Hl].
      by rewrite (bind_Ok _ _ _ _ _ Hl), Hl.
    + unfold getUsers.
      pose proof (findMany_down (prisma P) User ("createdAt", Desc) ∅ s Hup) as Hl.
      by rewrite (bind_Throw _ _ _ _ _ Hl), Hl.
Qed.

(** The slug route calls a member that the [storage] module does not
    have; the [TypeError] lands in the handler's [catch]. *)
Lemma slug_lookup_throws (c : context) (slug : string) (s : db) :
  handle P c (GET_classrooms_slug slug) s =
    (failure 500 "Internal server error", s).
Proof. reflexivity. Qed.

End Probes.

(** C1, on the code as it is. With two classrooms stored under the
    distinct slugs [jazz] and [rock], looking either of them up by its
    slug answers 500 and not the classroom. *)
Theorem slug_lookup_of_stored_slugs_answers_500 :
  let c := Fixtures.at_time 2000 Fixtures.a_salt in
  let s := Fixtures.two_academies in
  (∃ r, rows s Classroom !! 1 = Some r ∧ r !! "customSlug" = Some (VStr "jazz")) ∧
  (∃ r, rows s Classroom !! 2 = Some r ∧ r !! "customSlug" = Some (VStr "rock")) ∧
  status (handle Fixtures.plain c (GET_classrooms_slug "jazz") s).1 = 500 ∧
  status (handle Fixtures.plain c (GET_classrooms_slug "rock") s).1 = 500.
Proof.
  split_and!; [eexists; split; by vm_compute..| |]; by rewrite slug_lookup_throws.
Qed.

End ProbeFacts.

(** ** Deleting and reading back *)

Module DeleteFacts.
Import Prisma PrismaFacts Storage Routes.

Lemma try_catch_Ok body handler s (r : response) s' :
  body s = (Ok r, s') → try_catch body handler s = (r, s').
Proof. unfold try_catch. by intros ->. Qed.

Lemma try_catch_Throw body handler s e s' :
  body s = (Throw e, s') → try_catch body handler s = (handler e, s').
Proof. unfold try_catch. by intros ->. Qed.

Section Delete.
Variable P : platform.

(** C7. For courses and for classrooms: when the row of the id is
    stored, the store is reachable and the schema lets the delete and the
    lookup through, [DELETE] answers 200 with a message and a [GET] of
    the same id afterwards answers 404; when there is no row of that id
    (or the id is no number), [DELETE] answers 500 and the store is as
    before. *)
Theorem delete_then_get_by_id
    (m : model) (DELETE GET : string → request) (c c' : context)
    (s : db) (id : string) :
  (m, DELETE, GET) ∈
    [ (Course, DELETE_courses_id, GET_courses_id);
      (Classroom, DELETE_classrooms_id, GET_classrooms_id) ] →
  (∀ i r,
     Env.parseInt id = Some i →
     rows s m !! i = Some r →
     connected s = true →
     admits (prisma P) (rows s) (Delete m i) = true →
     (∀ t, admits (prisma P) t (Find m i) = true) →
     ∃ msg s',
       handle P c (DELETE id) s = (json 200 (message msg), s') ∧
       rows s' m !! i = None ∧
       status (handle P c' (GET id) s').1 = 404) ∧
  ((Env.parseInt id ≫= λ i, rows s m !! i) = None →
   handle P c (DELETE id) s = (failure 500 "Internal server error", s)).
Proof.
  intros Hm. split.
  - intros i r Hid Hr Hup Hadm Hfind.
    pose proof (delete_present (prisma P) m i s r Hup Hadm Hr) as Hdel.
    set (s' := {| connected := connected s;
                  rows := <[m := delete i (rows s m)]> (rows s);
                  sequence := sequence s |}) in *.
    assert (rows s' m !! i = None) as Hgone.
    { simpl. rewrite fn_lookup_insert. apply lookup_delete_eq. }
    repeat (apply elem_of_cons in Hm as [[= -> -> ->]|Hm]);
      [| |by apply elem_of_nil in Hm].
    + eexists _, s'. split_and!; [|done|].
      * simpl. apply try_catch_Ok. unfold deleteCourse. rewrite Hid.
        by rewrite (bind_Ok _ _ _ _ _ Hdel).
      * simpl. unfold try_catch, getCourseById. rewrite Hid.
        erewrite bind_Ok by (by apply findUnique_up).
        by rewrite Hgone.
    + eexists _, s'. split_and!; [|done|].
      * simpl. apply try_catch_Ok. unfold deleteClassroom. rewrite Hid.
        by rewrite (bind_Ok _ _ _ _ _ Hdel).
      * simpl. unfold try_catch, getClassroomById. rewrite Hid.
        erewrite bind_Ok by (by apply findUnique_up).
        by rewrite Hgone.
  - intros Hnone.
    destruct (delete_fails (prisma P) m (Env.parseInt id) s Hnone) as [e He].
    repeat (apply elem_of_cons in Hm as [[= -> -> ->]|Hm]);
      [| |by apply elem_of_nil in Hm]; simpl.
    + unfold deleteCourse.
      by rewrite (try_catch_Throw _ _ _ e s) by (by rewrite (bind_Throw _ _ _ _ _ He)).
    + unfold deleteClassroom.
      by rewrite (try_catch_Throw _ _ _ e s) by (by rewrite (bind_Throw _ _ _ _ _ He)).
Qed.

End Delete.
End DeleteFacts.

(** ** Creating and reading back *)

Module CreateFacts.
Import Zod ZodFacts Prisma PrismaFacts Storage.

Lemma insertUserSchema_names re : NoDup (fname <$> insertUserSchema re).
Proof. apply (bool_decide_unpack _). by vm_compute. Qed.

Lemma insertCourseSchema_names : NoDup (fname <$> insertCourseSchema).
Proof. apply (bool_decide_unpack _). by vm_compute. Qed.

Lemma insertClassroomSchema_names : NoDup (fname <$> insertClassroomSchema).
Proof. apply (bool_decide_unpack _). by vm_compute. Qed.

Lemma schemas_without_id re :
  Forall (λ sh, "id" ∉ (fname <$> sh))
    [insertUserSchema re; insertCourseSchema; insertClassroomSchema].
Proof. repeat constructor; apply (bool_decide_unpack _); by vm_compute. Qed.


Section Create.
Variable P : platform.



End Create.
End CreateFacts.

(** ** Password hashing *)

Module BcryptFacts.
Import Bcrypt.

Lemma substring_app_exact (s t : string) :
  substring 0 (String.length s) (s ++ t) = s.
Proof.
  induction s as [|a s IH]; simpl.
  - by destruct t.
  - by rewrite IH.
Qed.

Lemma substring_0_0 (s : string) : substring 0 0 s = "".
Proof. by destruct s. Qed.

Lemma eqb_app_l (s x y : string) :
  String.eqb (s ++ x) (s ++ y) = String.eqb x y.
Proof.
  induction s as [|a s IH]; simpl; [done|].
  by rewrite Ascii.eqb_refl.
Qed.

Section Bcrypt.
Variable eks : Z → string → string → string.
Variable compare_other : string → string → bool.

Lemma salt_text_length salt : salt_text salt = true → String.length salt = 22%nat.
Proof.
  unfold salt_text. rewrite !andb_true_iff. intros [[Hlen _] _].
  by apply Nat.eqb_eq.
Qed.

Lemma hash_shape password salt :
  hash eks password 10 salt =
  ("$2b$10$" ++ (salt ++ eks 10 salt (key_of password)))%string.
Proof. reflexivity. Qed.

Lemma read_setting_app salt d :
  salt_text salt = true →
  read_setting ("$2b$10$" ++ (salt ++ d)) = Some (10, salt).
Proof.
  intros Hsalt. pose proof (salt_text_length _ Hsalt) as Hlen.
  unfold read_setting.
  replace (substring 0 4 ("$2b$10$" ++ (salt ++ d))) with "$2b$" by reflexivity.
  replace (substring 4 2 ("$2b$10$" ++ (salt ++ d))) with "10" by reflexivity.
  replace (substring 6 1 ("$2b$10$" ++ (salt ++ d))) with "$".
  2: { change (substring 6 1 ("$2b$10$" ++ (salt ++ d)))
         with (String "$" (substring 0 0 (salt ++ d))).
       by rewrite substring_0_0. }
  replace (substring 7 22 ("$2b$10$" ++ (salt ++ d))) with salt.
  2: { change (substring 7 22 ("$2b$10$" ++ (salt ++ d)))
         with (substring 0 22 (salt ++ d)).
       by rewrite <- Hlen, substring_app_exact. }
  change (read_two_digits "10") with (Some 10).
  by rewrite Hsalt.
Qed.

(** The hash string written with ten rounds is read back as such. *)
Lemma read_setting_hash password salt :
  salt_text salt = true →
  read_setting (hash eks password 10 salt) = Some (10, salt).
Proof. intros Hsalt. rewrite hash_shape. by apply read_setting_app. Qed.

(** Comparing against a hash compares the digests of the two keys. *)
Lemma compare_hash q password salt :
  salt_text salt = true →
  compare eks compare_other q (hash eks password 10 salt) =
  String.eqb (eks 10 salt (key_of q)) (eks 10 salt (key_of password)).
Proof.
  intros Hsalt. unfold compare. rewrite read_setting_hash by done.
  unfold hash, crypt. apply eqb_app_l.
Qed.

Lemma compare_hash_same password salt :
  salt_text salt = true →
  compare eks compare_other password (hash eks password 10 salt) = true.
Proof. intros Hsalt. rewrite compare_hash by done. apply String.eqb_refl. Qed.

(** Passwords that agree on their first 72 bytes are not told apart. *)
Lemma compare_hash_same_key q password salt :
  salt_text salt = true →
  key_of q = key_of password →
  compare eks compare_other q (hash eks password 10 salt) = true.
Proof.
  intros Hsalt Hkey. rewrite compare_hash, Hkey by done. apply String.eqb_refl.
Qed.

Lemma hash_prefix password salt :
  substring 0 7 (hash eks password 10 salt) = "$2b$10$".
Proof.
  rewrite hash_shape.
  change (substring 0 7 ("$2b$10$" ++ (salt ++ eks 10 salt (key_of password))))
    with ("$2b$10$" ++ substring 0 0 (salt ++ eks 10 salt (key_of password)))%string.
  by rewrite substring_0_0.
Qed.

End Bcrypt.
End BcryptFacts.

(** ** Registration and login *)

Module AuthFacts.
Import Zod ZodFacts Prisma PrismaFacts Storage Routes DeleteFacts CreateFacts.

Section Auth.
Variable P : platform.

(** The handler of [POST /api/auth/register], path by path. *)
Lemma register_steps c body s :
  handle P c (POST_auth_register body) s =
    match parse (insertUserSchema (is_email P)) (registration body) with
    | Throw e => (zod_or_internal "Invalid registration data" e, s)
    | Ok data =>
        match getUserByEmail (VStr (text data "email")) s with
        | (Throw e, _) => (zod_or_internal "Invalid registration data" e, s)
        | (Ok (Some _), _) => (failure 409 "User already exists with this email", s)
        | (Ok None, _) =>
            match createUser P
                    (<["password" :=
                         VStr (hashPassword P (text data "password") (salt c))]> data)
                    (now c) s with
            | (Ok user, s') => (registered user, s')
            | (Throw e, s') => (zod_or_internal "Invalid registration data" e, s')
            end
        end
    end.
Proof.
  unfold handle, try_catch, register.
  destruct (parse _ (registration body)) as [data|e] eqn:Hparse.
  - erewrite bind_Ok by reflexivity.
    pose proof (findUniqueBy_reads User "email" (VStr (text data "email")) s) as Hs.
    unfold getUserByEmail.
    destruct (findUniqueBy User "email" (VStr (text data "email")) s)
      as [[[existing|]|e] s1] eqn:Hfind; simpl in Hs; subst s1.
    + by rewrite (bind_Ok _ _ _ _ _ Hfind).
    + rewrite (bind_Ok _ _ _ _ _ Hfind).
      destruct (createUser P _ (now c) s) as [[user|e] s'] eqn:Hcreate.
      * by rewrite (bind_Ok _ _ _ _ _ Hcreate).
      * by rewrite (bind_Throw _ _ _ _ _ Hcreate).
    + by rewrite (bind_Throw _ _ _ _ _ Hfind).
  - by erewrite bind_Throw by reflexivity.
Qed.

Lemma registration_keeps body k :
  k ≠ "role" → registration body !! k = body !! k.
Proof.
  intros Hk. unfold registration, rest.
  by rewrite lookup_insert_ne, lookup_delete_ne.
Qed.

Lemma parsed_text sh input data f v :
  NoDup (fname <$> sh) → f ∈ sh → parse sh input = Ok data →
  input !! fname f = Some (VStr v) → text data (fname f) = v.
Proof.
  intros Hnd Hf Hparse Hv. unfold text.
  by rewrite (parse_field_value sh input data f Hnd Hf Hparse), Hv.
Qed.

Lemma email_field : Field "email" (ZStringMatching (is_email P)) Required
                    ∈ insertUserSchema (is_email P).
Proof. do 2 apply list_elem_of_further. apply list_elem_of_here. Qed.

Lemma password_field : Field "password" ZString Required
                       ∈ insertUserSchema (is_email P).
Proof. apply list_elem_of_further, list_elem_of_here. Qed.

Lemma has_string_eq (r : row) col v :
  r !! col = Some (VStr v) → has_string r col v = true.
Proof. unfold has_string. intros ->. apply String.eqb_refl. Qed.

Lemma has_string_true (r : row) col v :
  has_string r col v = true → r !! col = Some (VStr v).
Proof.
  unfold has_string. destruct (r !! col) as [[]|]; try done.
  by intros ->%String.eqb_eq.
Qed.

(** C4, as the code has it. When a user with the email is stored and
    the store is reachable, a registration with that email leaves the
    store as it is; it is answered 409 when the payload passes the
    schema, and 400 when it does not. *)
Theorem registration_with_a_stored_email
    (c : context) (s : db) (body : object) (e : string) :
  connected s = true →
  (∃ i u, rows s User !! i = Some u ∧ u !! "email" = Some (VStr e)) →
  body !! "email" = Some (VStr e) →
  (handle P c (POST_auth_register body) s).2 = s ∧
  status (handle P c (POST_auth_register body) s).1 =
    (if forallb (field_ok (registration body)) (insertUserSchema (is_email P))
     then 409 else 400).
Proof.
  intros Hup (i & u & Hu & Hue) Hbody. rewrite register_steps.
  destruct (parse _ (registration body)) as [data|err] eqn:Hparse.
  - pose proof Hparse as [-> _]%parse_Ok.
    pose proof (parsed_text _ _ _ _ e (insertUserSchema_names _) email_field Hparse)
      as Htext.
    simpl in Htext. rewrite Htext by (by rewrite registration_keeps).
    unfold getUserByEmail. rewrite findUniqueBy_up by done.
    destruct (list_find _ _) as [[j kr]|] eqn:Hfind; [done|].
    rewrite find_by_None in Hfind.
    pose proof (has_string_eq u "email" e Hue) as Hhas.
    by rewrite (Hfind i u Hu) in Hhas.
  - apply parse_Throw in Hparse as [-> [issues ->]]. done.
Qed.

(** The handler of [POST /api/auth/login], path by path; it never
    writes. *)
Lemma login_steps c payload s :
  handle P c (POST_auth_login payload) s =
    (match payload !! "email", payload !! "password" with
     | Some email, Some password =>
         if negb (truthy (Some email)) || negb (truthy (Some password))
         then failure 400 "Email and password are required"
         else
           match getUserByEmail email s with
           | (Throw _, _) => failure 500 "Internal server error"
           | (Ok None, _) => failure 401 "Invalid credentials"
           | (Ok (Some user), _) =>
               match password, user !! "password" with
               | VStr p, Some (VStr h) =>
                   if Bcrypt.compare (eks P) (compare_other P) p h
                   then logged_in user
                   else failure 401 "Invalid credentials"
               | _, _ => failure 500 "Internal server error"
               end
           end
     | _, _ => failure 400 "Email and password are required"
     end, s).
Proof.
  unfold handle, try_catch, login.
  destruct (payload !! "email") as [email|]; [|done].
  destruct (payload !! "password") as [password|]; [|done].
  destruct (negb (truthy (Some email)) || negb (truthy (Some password))); [done|].
  pose proof (findUniqueBy_reads User "email" email s) as Hs.
  unfold getUserByEmail.
  destruct (findUniqueBy User "email" email s) as [[[user|]|e] s1] eqn:Hfind;
    simpl in Hs; subst s1.
  - rewrite (bind_Ok _ _ _ _ _ Hfind). unfold verifyPassword.
    destruct password as [| | |p| | |]; try done.
    destruct (user !! "password") as [[| | |h| | |]|]; try done.
    erewrite bind_Ok by reflexivity.
    by destruct (Bcrypt.compare _ _ p h).
  - by rewrite (bind_Ok _ _ _ _ _ Hfind).
  - by rewrite (bind_Throw _ _ _ _ _ Hfind).
Qed.

Lemma status_zod_or_internal msg e :
  status (zod_or_internal msg e) = 400 ∨ status (zod_or_internal msg e) = 500.
Proof. destruct e; auto. Qed.

Lemma createUser_Ok input now s user s' :
  createUser P input now s = (Ok user, s') →
  ∃ data, parse (insertUserSchema (is_email P)) input = Ok data ∧
          create (prisma P) User data now ∅ s = (Ok user, s').
Proof.
  unfold createUser.
  destruct (parse _ input) as [data|e] eqn:Hparse.
  - erewrite bind_Ok by reflexivity. eauto.
  - by erewrite bind_Throw by reflexivity.
Qed.

(** A registration that is answered 201 went down the one path that
    stores a user. *)
Lemma register_201 c payload s r s' :
  handle P c (POST_auth_register payload) s = (r, s') → status r = 201 →
  ∃ data stored_data user,
    parse (insertUserSchema (is_email P)) (registration payload) = Ok data ∧
    getUserByEmail (VStr (text data "email")) s = (Ok None, s) ∧
    parse (insertUserSchema (is_email P))
      (<["password" := VStr (hashPassword P (text data "password") (salt c))]> data)
      = Ok stored_data ∧
    create (prisma P) User stored_data (now c) ∅ s = (Ok user, s') ∧
    r = registered user.
Proof.
  rewrite register_steps. intros Hrun Hst.
  destruct (parse _ (registration payload)) as [data|e] eqn:Hparse.
  2: { injection Hrun as <- <-.
       destruct (status_zod_or_internal "Invalid registration data" e); lia. }
  pose proof (findUniqueBy_reads User "email" (VStr (text data "email")) s) as Hs.
  unfold getUserByEmail in *.
  destruct (findUniqueBy User "email" (VStr (text data "email")) s)
    as [[[existing|]|e] s1] eqn:Hfind; simpl in Hs; subst s1.
  - injection Hrun as <- <-. done.
  - destruct (createUser P _ (now c) s) as [[user|e] s2] eqn:Hcreate.
    + injection Hrun as <- <-.
      apply createUser_Ok in Hcreate as (stored_data & Hparse2 & Hcreate).
      eauto 10.
    + injection Hrun as <- <-.
      destruct (status_zod_or_internal "Invalid registration data" e); lia.
  - injection Hrun as <- <-.
    destruct (status_zod_or_internal "Invalid registration data" e); lia.
Qed.

(** C10. A registration answered 201 and a login answered 200 carry a
    user object without a password field, while the stored row of that
    user holds one. *)
Theorem no_password_in_auth_responses
    (c : context) (s s' : db) (payload : object) (r : response) :
  (handle P c (POST_auth_register payload) s = (r, s') ∧ status r = 201) ∨
  (handle P c (POST_auth_login payload) s = (r, s') ∧ status r = 200) →
  ∃ msg user i stored h,
    body r = VObj {[ "message" := VStr msg; "user" := VObj user ]} ∧
    user !! "password" = None ∧
    rows s' User !! i = Some stored ∧
    stored !! "password" = Some (VStr h).
Proof.
  intros [[Hrun Hst]|[Hrun Hst]].
  - apply register_201 in Hrun as (data & sd & user & Hp1 & _ & Hp2 & Hcreate & ->);
      [|done].
    apply create_Ok in Hcreate as (id & Hstored & _ & _ & _ & _ & ->).
    eexists _, _, id, _, _. split_and!; [reflexivity| |exact Hstored|].
    + apply lookup_delete_eq.
    + rewrite lookup_insert_ne by done. apply lookup_union_Some_l.
      pose proof (parse_field_value _ _ _ _ (insertUserSchema_names _)
                    password_field Hp2) as Hpw.
      simpl in Hpw. by rewrite Hpw, lookup_insert_eq.
  - rewrite login_steps in Hrun. injection Hrun as <- <-.
    destruct (payload !! "email") as [email|]; [|done].
    destruct (payload !! "password") as [password|]; [|done].
    destruct (negb _ || negb _); [done|].
    destruct (getUserByEmail email s) as [[[user|]|e] s1] eqn:Hfind; try done.
    apply findUniqueBy_Some in Hfind as (-> & i & w & -> & Hrow & _).
    destruct password as [| | |p| | |]; try done.
    destruct (user !! "password") as [[| | |h| | |]|] eqn:Hpw; try done.
    destruct (Bcrypt.compare _ _ p h); [|done].
    eexists _, _, i, user, h. split_and!; [reflexivity| |done..].
    apply lookup_delete_eq.
Qed.

(** After a registration answered 201, the row of the new user is the
    one row with its email, and it holds the hash of the password. *)
Lemma registered_row c payload s r s' e p :
  payload !! "email" = Some (VStr e) →
  payload !! "password" = Some (VStr p) →
  handle P c (POST_auth_register payload) s = (r, s') → status r = 201 →
  connected s' = true ∧
  ∃ i stored,
    rows s' User !! i = Some stored ∧
    stored !! "email" = Some (VStr e) ∧
    stored !! "password" = Some (VStr (hashPassword P p (salt c))) ∧
    ∀ j other, rows s' User !! j = Some other →
               has_string other "email" e = true → other = stored.
Proof.
  intros He Hp Hrun Hst.
  apply register_201 in Hrun as (data & sd & user & Hp1 & Hnone & Hp2 & Hcreate & _);
    [|done].
  pose proof (insertUserSchema_names (is_email P)) as Hnd.
  pose proof (parse_field_value _ _ _ _ Hnd email_field Hp1) as He1.
  pose proof (parse_field_value _ _ _ _ Hnd password_field Hp1) as Hpw1.
  pose proof (parse_field_value _ _ _ _ Hnd email_field Hp2) as He2.
  pose proof (parse_field_value _ _ _ _ Hnd password_field Hp2) as Hpw2.
  simpl in He1, Hpw1, He2, Hpw2.
  rewrite registration_keeps, He in He1 by done.
  rewrite registration_keeps, Hp in Hpw1 by done.
  rewrite lookup_insert_ne, He1 in He2 by done.
  rewrite lookup_insert_eq in Hpw2.
  assert (text data "email" = e) as Hte by (unfold text; by rewrite He1).
  assert (text data "password" = p) as Htp by (unfold text; by rewrite Hpw1).
  rewrite Hte in Hnone. rewrite Htp in Hpw2.
  apply findUniqueBy_None in Hnone as [Hup Hnone].
  apply create_Ok in Hcreate as (id & Hstored & Hfree & Hothers & Hup' & _ & _).
  split; [congruence|].
  eexists id, _. split_and!; [exact Hstored| | |].
  - rewrite lookup_insert_ne by done. by apply lookup_union_Some_l.
  - rewrite lookup_insert_ne by done. by apply lookup_union_Some_l.
  - intros j other Hj Hhas.
    destruct (decide (j = id)) as [->|Hne]; [congruence|].
    rewrite Hothers in Hj by done.
    rewrite (Hnone j other Hj) in Hhas. done.
Qed.

(** C5, as the code has it. After a registration with password [p]
    that is answered 201, the stored password is the hash string of [p]
    under the salt that was drawn, which begins with the version and the
    cost and so differs from [p] unless [p] begins that way too. A login
    with the email of that user and a password [q] is answered 400 when
    [q] is empty, 200 when the digest of the first 72 bytes of [q] is the
    digest of the first 72 bytes of [p], and 401 otherwise. *)
Theorem stored_hash_and_login
    (c : context) (s s' : db) (payload : object) (r : response)
    (e p : string) :
  payload !! "email" = Some (VStr e) →
  payload !! "password" = Some (VStr p) →
  handle P c (POST_auth_register payload) s = (r, s') →
  status r = 201 →
  Bcrypt.salt_text (salt c) = true →
  e ≠ "" →
  let h := Bcrypt.hash (eks P) p 10 (salt c) in
  (∃ i stored, rows s' User !! i = Some stored ∧
               stored !! "email" = Some (VStr e) ∧
               stored !! "password" = Some (VStr h)) ∧
  substring 0 7 h = "$2b$10$" ∧
  (substring 0 7 p ≠ "$2b$10$" → h ≠ p) ∧
  ∀ (c' : context) (attempt : object) (q : string),
    attempt !! "email" = Some (VStr e) →
    attempt !! "password" = Some (VStr q) →
    status (handle P c' (POST_auth_login attempt) s').1 =
      if String.eqb q "" then 400
      else if String.eqb (eks P 10 (salt c) (Bcrypt.key_of q))
                         (eks P 10 (salt c) (Bcrypt.key_of p))
           then 200 else 401.
Proof.
  intros He Hp Hrun Hst Hsalt Hne h.
  destruct (registered_row c payload s r s' e p He Hp Hrun Hst)
    as (Hup & i & stored & Hstored & Hse & Hsp & Honly).
  pose proof (BcryptFacts.hash_prefix (eks P) p (salt c)) as Hprefix.
  subst h.
  split_and!; [by eauto|done|intros Hp7 Heq; apply Hp7; by rewrite <- Heq|].
  intros c' attempt q Hae Haq. rewrite login_steps, Hae, Haq.
  unfold getUserByEmail. rewrite findUniqueBy_up by done.
  apply String.eqb_neq in Hne. simpl. rewrite Hne. simpl.
  destruct (String.eqb q "") eqn:Hq; [done|]. simpl.
  destruct (list_find _ _) as [[j kr]|] eqn:Hfind; simpl.
  - apply find_by_Some in Hfind as [Hkr Hhas].
    rewrite (Honly _ _ Hkr Hhas), Hsp. unfold hashPassword.
    rewrite BcryptFacts.compare_hash by done.
    by destruct (String.eqb (eks P 10 _ _) _).
  - rewrite find_by_None in Hfind.
    pose proof (has_string_eq stored "email" e Hse) as Hhas.
    by rewrite (Hfind i stored Hstored) in Hhas.
Qed.

End Auth.

(** C4, as it is stated, fails: with [ada] registered, a registration
    that carries her email and nothing else is answered 400, not 409. *)
Lemma registration_with_a_stored_email_and_no_name :
  let s := Fixtures.with_ada in
  let body : object := {[ "email" := VStr "ada@example.org" ]} in
  (∃ i u, rows s User !! i = Some u ∧ u !! "email" = Some (VStr "ada@example.org")) ∧
  body !! "email" = Some (VStr "ada@example.org") ∧
  status (handle Fixtures.plain (Fixtures.at_time 2000 Fixtures.a_salt)
            (POST_auth_register body) s).1 = 400 ∧
  status (handle Fixtures.plain (Fixtures.at_time 2000 Fixtures.a_salt)
            (POST_auth_register body) s).1 ≠ 409.
Proof.
  split_and!.
  - exists 1. eexists. split; by vm_compute.
  - done.
  - by vm_compute.
  - by vm_compute.
Qed.

(** C5, as it is stated, fails: the schema lets the empty password
    through at registration, and a login with that very password is
    answered 400. *)
Lemma login_with_the_registered_empty_password :
  let c := Fixtures.at_time 1000 Fixtures.a_salt in
  let payload : object := <["password" := VStr ""]> Fixtures.ada in
  let registration := handle Fixtures.plain c (POST_auth_register payload)
                        Fixtures.empty_db in
  status registration.1 = 201 ∧
  status (handle Fixtures.plain c (POST_auth_login payload) registration.2).1 = 400.
Proof. split; by vm_compute. Qed.

(** Nor is every other string turned away: a password of 73 bytes and
    another one with the same first 72 bytes log in alike. *)
Example login_with_another_long_password :
  let c := Fixtures.at_time 1000 Fixtures.a_salt in
  let p := (Fixtures.seventy_two ++ "b")%string in
  let q := (Fixtures.seventy_two ++ "c")%string in
  let registration :=
    handle Fixtures.plain c (POST_auth_register (<["password" := VStr p]> Fixtures.ada))
      Fixtures.empty_db in
  q ≠ p ∧
  status registration.1 = 201 ∧
  status (handle Fixtures.plain c
            (POST_auth_login (<["password" := VStr q]> Fixtures.ada))
            registration.2).1 = 200.
Proof.
  split_and!; [|by vm_compute..].
  apply String.eqb_neq. by vm_compute.
Qed.

End AuthFacts.

(** ** The status-code policy *)

Module PolicyFacts.
Import Zod ZodFacts Prisma PrismaFacts Storage Routes Policy.
Import DeleteFacts CreateFacts AuthFacts.

Section Policy.
Variable P : platform.

Lemma lookup_status m id include what s :
  status (try_catch
            (x ← findUnique (prisma P) m (Env.parseInt id) include;
             mret (found what x))
            internal_error s).1 =
  handler_status Read (lookup P s m id).
Proof.
  destruct (findUnique_run (prisma P) m (Env.parseInt id) include s) as [e Hrun].
  unfold lookup. destruct (Env.parseInt id) as [i|].
  - destruct (can_find (prisma P) s m i).
    + rewrite (try_catch_Ok _ _ s (found what
                 (with_relations (prisma P) (rows s) m include <$> rows s m !! i)) s)
        by (by rewrite (bind_Ok _ _ _ _ _ Hrun)).
      by destruct (rows s m !! i).
    + by rewrite (try_catch_Throw _ _ s e s)
        by (by rewrite (bind_Throw _ _ _ _ _ Hrun)).
  - by rewrite (try_catch_Throw _ _ s e s)
      by (by rewrite (bind_Throw _ _ _ _ _ Hrun)).
Qed.

Lemma listing_status m orderBy include (answer : list row → response)
    oops code code' s :
  (∀ l, status (answer l) = code) → (∀ e, status (oops e) = code') →
  status (try_catch
            (l ← findMany (prisma P) m orderBy include; mret (answer l))
            oops s).1 =
  if connected s then code else code'.
Proof.
  intros Hanswer Hoops. destruct (connected s) eqn:Hup.
  - destruct (findMany_up (prisma P) m orderBy include s Hup) as [l Hl].
    rewrite (try_catch_Ok _ _ s (answer l) s)
      by (by rewrite (bind_Ok _ _ _ _ _ Hl)).
    apply Hanswer.
  - pose proof (findMany_down (prisma P) m orderBy include s Hup) as Hl.
    rewrite (try_catch_Throw _ _ s unreachable s)
      by (by rewrite (bind_Throw _ _ _ _ _ Hl)).
    apply Hoops.
Qed.

Lemma creation_status m sh msg include payload now s :
  NoDup (fname <$> sh) →
  status (try_catch
            (d ← lift (parse sh payload);
             created ← (v ← lift (parse sh d); create (prisma P) m v now include);
             mret (json 201 (VObj created)))
            (zod_or_internal msg) s).1 =
  handler_status Create (creation P s m sh payload).
Proof.
  intros Hnd. unfold creation.
  destruct (parse sh payload) as [d|e] eqn:Hparse.
  - pose proof (parse_again _ _ _ Hnd Hparse) as Hagain.
    apply parse_Ok in Hparse as [-> <-].
    pose proof (create_run (prisma P) m d now include s) as Hrun.
    destruct (can_insert (prisma P) s m d).
    + destruct Hrun as (r & s' & Hrun).
      rewrite (try_catch_Ok _ _ s (json 201 (VObj r)) s'); [done|].
      erewrite bind_Ok by reflexivity.
      erewrite bind_Ok; [reflexivity|].
      erewrite bind_Ok; [exact Hrun|]. unfold lift. by rewrite Hagain.
    + destruct Hrun as (code & Hrun).
      rewrite (try_catch_Throw _ _ s (PrismaError code) s); [done|].
      erewrite bind_Ok by reflexivity.
      erewrite bind_Throw; [reflexivity|].
      erewrite bind_Ok; [exact Hrun|]. unfold lift. by rewrite Hagain.
  - apply parse_Throw in Hparse as [-> [issues ->]].
    by rewrite (try_catch_Throw _ _ s (ZodError issues) s)
      by (by erewrite bind_Throw by reflexivity).
Qed.

Lemma change_status m id data now include s :
  status (try_catch
            (changed ← update (prisma P) m (Env.parseInt id) data now include;
             mret (json 200 (VObj changed)))
            internal_error s).1 =
  handler_status Update_ (change P s m id data).
Proof.
  unfold change. destruct (Env.parseInt id) as [i|].
  - pose proof (update_run (prisma P) m i data now include s) as Hrun.
    destruct (can_update (prisma P) s m i data).
    + destruct Hrun as (r & s' & Hrun).
      by rewrite (try_catch_Ok _ _ s (json 200 (VObj r)) s')
        by (by rewrite (bind_Ok _ _ _ _ _ Hrun)).
    + destruct Hrun as (e & Hrun).
      by rewrite (try_catch_Throw _ _ s e s)
        by (by rewrite (bind_Throw _ _ _ _ _ Hrun)).
  - by rewrite (try_catch_Throw _ _ s invalid_arguments s).
Qed.

Lemma removal_status m id msg s :
  let r := (try_catch
              (_ ← delete_ (prisma P) m (Env.parseInt id);
               mret (json 200 (message msg)))
              internal_error s).1 in
  status r = handler_status Delete_ (removal P s m id) ∧
  (removal P s m id = Succeeded → body r = message msg).
Proof.
  unfold removal. destruct (Env.parseInt id) as [i|].
  - pose proof (delete_run (prisma P) m i s) as Hrun.
    destruct (can_delete (prisma P) s m i).
    + destruct Hrun as (r & s' & Hrun).
      by rewrite (try_catch_Ok _ _ s (json 200 (message msg)) s')
        by (by rewrite (bind_Ok _ _ _ _ _ Hrun)).
    + destruct Hrun as (e & Hrun).
      by rewrite (try_catch_Throw _ _ s e s)
        by (by rewrite (bind_Throw _ _ _ _ _ Hrun)).
  - by rewrite (try_catch_Throw _ _ s invalid_arguments s).
Qed.

Lemma register_status c payload s :
  status (handle P c (POST_auth_register payload) s).1 =
  handler_status Create (signing_up P c s payload).
Proof.
  rewrite register_steps. unfold signing_up.
  pose proof (insertUserSchema_names (is_email P)) as Hnd.
  destruct (parse _ (registration payload)) as [data|e] eqn:Hparse.
  2: { by apply parse_Throw in Hparse as [-> [issues ->]]. }
  pose proof (parsed_settled _ _ _ Hnd Hparse) as Hsettled.
  apply parse_Ok in Hparse as [-> <-].
  unfold getUserByEmail, with_email.
  destruct (connected s) eqn:Hup; cbn [negb].
  2: { destruct (findUniqueBy_down User "email" (VStr (text data "email")) s Hup)
         as [e He].
       rewrite He. by destruct (findUniqueBy_Throw _ _ _ _ _ _ He) as [code ->]. }
  rewrite findUniqueBy_up by done.
  destruct (list_find _ _) as [[j kr]|]; simpl; [done|].
  set (stored := <["password" := _]> data).
  assert (parse (insertUserSchema (is_email P)) stored = Ok stored) as Hagain.
  { apply parse_settled; [done|].
    by apply (settled_insert _ _ (Field "password" ZString Required) _ Hnd Hsettled
                (password_field P)). }
  unfold createUser.
  pose proof (create_run (prisma P) User stored (now c) ∅ s) as Hrun.
  destruct (can_insert (prisma P) s User stored).
  - destruct Hrun as (r & s' & Hrun).
    erewrite bind_Ok; [|unfold lift; by rewrite Hagain]. by rewrite Hrun.
  - destruct Hrun as (code & Hrun).
    erewrite bind_Ok; [|unfold lift; by rewrite Hagain]. by rewrite Hrun.
Qed.

Lemma login_status c payload s :
  status (handle P c (POST_auth_login payload) s).1 =
  handler_status Login (signing_in P s payload).
Proof.
  rewrite login_steps. unfold signing_in.
  destruct (payload !! "email") as [email|]; [|done].
  destruct (payload !! "password") as [password|];
    [|by rewrite andb_false_r].
  destruct (truthy (Some email)) eqn:Hte; [|done].
  destruct (truthy (Some password)) eqn:Htp; [|done]. simpl.
  unfold getUserByEmail, with_email.
  destruct email as [| | |e| | |]; try done.
  destruct (connected s) eqn:Hup.
  2: { destruct (findUniqueBy_down User "email" (VStr e) s Hup) as [err He].
       by rewrite He. }
  rewrite findUniqueBy_up by done.
  destruct (list_find _ _) as [[j kr]|]; simpl; [|done].
  destruct password as [| | |p| | |]; try done.
  destruct (kr.2 !! "password") as [[| | |h| | |]|]; try done.
  by destruct (Bcrypt.compare _ _ p h).
Qed.

Lemma change_of_missing_row s m id data :
  (Env.parseInt id ≫= λ i, rows s m !! i) = None →
  change P s m id data = Failed.
Proof.
  unfold change, can_update. destruct (Env.parseInt id) as [i|]; [|done].
  simpl. intros ->.
  rewrite bool_decide_eq_false_2 by (by intros [? ?]).
  by rewrite andb_false_r.
Qed.

(** C8, as the code has it. Every request but the slug lookup is
    answered by the policy of the handlers: 200 for a read, an update, a
    delete or a login that succeeds, 201 for a create that succeeds, 404
    for a lookup by id that finds no row, 400 for a payload that fails
    validation, 409 for a registration with a taken email, 401 for a
    login that is turned away, 503 for a failed readiness probe and 500
    for every other failure. A delete that succeeds carries a message,
    and an update of an id with no row is among the failures answered
    500. *)
Theorem handlers_follow_their_policy (c : context) (r : request) (s : db) :
  (∀ slug, r ≠ GET_classrooms_slug slug) →
  status (handle P c r s).1 = handler_status (kind_of r) (verdict_of P c r s) ∧
  (kind_of r = Delete_ → verdict_of P c r s = Succeeded →
   ∃ msg, body (handle P c r s).1 = message msg) ∧
  (kind_of r = Update_ → addressed r s = None →
   status (handle P c r s).1 = 500).
Proof.
  intros Hslug.
  assert (status (handle P c r s).1 =
          handler_status (kind_of r) (verdict_of P c r s)) as Hstatus.
  { destruct r; try (by destruct (Hslug slug)).
    - done.
    - etrans;
        [apply (listing_status User ("createdAt", Desc) ∅
                  (λ _, json 200 (VObj {[ "status" := VStr "ready" ]})));
           intros; reflexivity
        |simpl; unfold listing; by destruct (connected s)].
    - apply lookup_status.
    - etrans;
        [apply (listing_status User ("createdAt", Desc) ∅
                  (λ l, json 200 (rows_json l)) internal_error 200 500);
           intros; reflexivity
        |simpl; unfold listing; by destruct (connected s)].
    - apply creation_status, insertUserSchema_names.
    - apply register_status.
    - apply login_status.
    - etrans;
        [apply (listing_status Course ("createdAt", Desc) _
                  (λ l, json 200 (rows_json l)) internal_error 200 500);
           intros; reflexivity
        |simpl; unfold listing; by destruct (connected s)].
    - apply lookup_status.
    - apply creation_status, insertCourseSchema_names.
    - apply change_status.
    - apply removal_status.
    - etrans;
        [apply (listing_status Classroom ("createdAt", Desc) _
                  (λ l, json 200 (rows_json l)) internal_error 200 500);
           intros; reflexivity
        |simpl; unfold listing; by destruct (connected s)].
    - apply lookup_status.
    - apply creation_status, insertClassroomSchema_names.
    - apply change_status.
    - apply removal_status.
    - apply lookup_status.
    - apply change_status.
    - apply lookup_status.
    - apply change_status.
    - apply lookup_status.
    - apply change_status. }
  split_and!; [done| |].
  - intros Hkind Hv. destruct r; try discriminate Hkind.
    + eexists. by apply removal_status.
    + eexists. by apply removal_status.
  - intros Hkind Hnone. rewrite Hstatus.
    destruct r; try discriminate Hkind; simpl in *;
      by rewrite change_of_missing_row.
Qed.

End Policy.

(** C8, as it is stated, fails: with [ada] registered, a second
    registration with her payload is a failure that is neither a
    validation failure nor an empty lookup, and it is answered 409 where
    the stated policy has 500. *)
Lemma taken_email_is_answered_409 :
  let c := Fixtures.at_time 2000 Fixtures.a_salt in
  let r := POST_auth_register Fixtures.ada in
  let s := Fixtures.with_ada in
  verdict_of Fixtures.plain c r s = Conflict ∧
  stated_status (kind_of r) (verdict_of Fixtures.plain c r s) = 500 ∧
  status (handle Fixtures.plain c r s).1 = 409.
Proof. split_and!; by vm_compute. Qed.

End PolicyFacts.

(** ** The theorems at work on the fixtures *)

Module Witnesses.
Import Zod Prisma Storage Routes Policy Fixtures.


Lemma registration_with_a_stored_email_witness :
  (handle plain (at_time 2000 a_salt) (POST_auth_register ada) with_ada).2
    = with_ada ∧
  status (handle plain (at_time 2000 a_salt) (POST_auth_register ada) with_ada).1 =
    (if forallb (field_ok (registration ada)) (insertUserSchema (is_email plain))
     then 409 else 400).
Proof.
  apply (AuthFacts.registration_with_a_stored_email plain (at_time 2000 a_salt)
           with_ada ada "ada@example.org").
  - reflexivity.
  - exists 1. eexists. split; vm_compute; reflexivity.
  - reflexivity.
Defined.

Lemma stored_hash_and_login_witness :
  let c := at_time 1000 a_salt in
  let s' := (handle plain c (POST_auth_register ada) empty_db).2 in
  let h := Bcrypt.hash (eks plain) "s3cret" 10 a_salt in
  (∃ i stored, rows s' User !! i = Some stored ∧
               stored !! "email" = Some (VStr "ada@example.org") ∧
               stored !! "password" = Some (VStr h)) ∧
  substring 0 7 h = "$2b$10$" ∧
  (substring 0 7 "s3cret" ≠ "$2b$10$" → h ≠ "s3cret") ∧
  ∀ (c' : context) (attempt : object) (q : string),
    attempt !! "email" = Some (VStr "ada@example.org") →
    attempt !! "password" = Some (VStr q) →
    status (handle plain c' (POST_auth_login attempt) s').1 =
      if String.eqb q "" then 400
      else if String.eqb (eks plain 10 a_salt (Bcrypt.key_of q))
                         (eks plain 10 a_salt (Bcrypt.key_of "s3cret"))
           then 200 else 401.
Proof.
  apply (AuthFacts.stored_hash_and_login plain (at_time 1000 a_salt) empty_db
           (handle plain (at_time 1000 a_salt) (POST_auth_register ada) empty_db).2
           ada
           (handle plain (at_time 1000 a_salt) (POST_auth_register ada) empty_db).1
           "ada@example.org" "s3cret").
  - reflexivity.
  - reflexivity.
  - apply surjective_pairing.
  - vm_compute. reflexivity.
  - vm_compute. reflexivity.
  - discriminate.
Defined.


Lemma delete_then_get_by_id_witness :
  let c := at_time 2000 a_salt in
  (∃ msg s',
     handle plain c (DELETE_courses_id "1") with_course
       = (json 200 (message msg), s') ∧
     rows s' Course !! 1 = None ∧
     status (handle plain c (GET_courses_id "1") s').1 = 404) ∧
  handle plain c (DELETE_courses_id "2") with_course
    = (failure 500 "Internal server error", with_course).
Proof.
  intros c.
  assert ((Course, DELETE_courses_id, GET_courses_id) ∈
            [ (Course, DELETE_courses_id, GET_courses_id);
              (Classroom, DELETE_classrooms_id, GET_classrooms_id) ]) as Hm
    by apply list_elem_of_here.
  split.
  - destruct (DeleteFacts.delete_then_get_by_id plain Course DELETE_courses_id
                GET_courses_id c c with_course "1" Hm) as [Hpresent _].
    eapply (Hpresent 1).
    + vm_compute. reflexivity.
    + vm_compute. reflexivity.
    + reflexivity.
    + reflexivity.
    + intros t. reflexivity.
  - destruct (DeleteFacts.delete_then_get_by_id plain Course DELETE_courses_id
                GET_courses_id c c with_course "2" Hm) as [_ Hmissing].
    apply Hmissing. vm_compute. reflexivity.
Defined.

Lemma handlers_follow_their_policy_witness :
  let c := at_time 2000 a_salt in
  let r := PATCH_courses_id "2" ∅ in
  status (handle plain c r with_course).1 =
    handler_status (kind_of r) (verdict_of plain c r with_course) ∧
  (kind_of r = Delete_ → verdict_of plain c r with_course = Succeeded →
   ∃ msg, body (handle plain c r with_course).1 = message msg) ∧
  (kind_of r = Update_ → addressed r with_course = None →
   status (handle plain c r with_course).1 = 500).
Proof.
  apply (PolicyFacts.handlers_follow_their_policy plain (at_time 2000 a_salt)
           (PATCH_courses_id "2" ∅) with_course).
  intros slug. discriminate.
Defined.

Lemma no_password_in_auth_responses_witness :
  let c := at_time 1000 a_salt in
  let answer := handle plain c (POST_auth_register ada) empty_db in
  ∃ msg user i stored h,
    body answer.1 = VObj {[ "message" := VStr msg; "user" := VObj user ]} ∧
    user !! "password" = None ∧
    rows answer.2 User !! i = Some stored ∧
    stored !! "password" = Some (VStr h).
Proof.
  apply (AuthFacts.no_password_in_auth_responses plain (at_time 1000 a_salt)
           empty_db
           (handle plain (at_time 1000 a_salt) (POST_auth_register ada) empty_db).2
           ada
           (handle plain (at_time 1000 a_salt) (POST_auth_register ada) empty_db).1).
  left. split.
  - apply surjective_pairing.
  - vm_compute. reflexivity.
Defined.

End Witnesses.

(** * Further properties of the code *)

(** ** What the handlers leave in the store *)

Module StoreFacts.
Import Zod ZodFacts Prisma PrismaFacts Storage Routes Policy.
Import DeleteFacts CreateFacts AuthFacts.

#[local] Instance before_total col d : Total (before col d).
Proof. intros r1 r2. destruct d; simpl; lia. Qed.

#[local] Instance before_transitive col d : Transitive (before col d).
Proof. intros r1 r2 r3. destruct d; simpl; lia. Qed.

Section Store.
Variable P : platform.

Lemma lookup_keeps m id include what s :
  (try_catch
     (x ← findUnique (prisma P) m (Env.parseInt id) include;
      mret (found what x))
     internal_error s).2 = s.
Proof.
  destruct (findUnique_run (prisma P) m (Env.parseInt id) include s) as [e Hrun].
  unfold try_catch.
  destruct (Env.parseInt id) as [i|]; [destruct (can_find (prisma P) s m i)|].
  - by rewrite (bind_Ok _ _ _ _ _ Hrun).
  - by rewrite (bind_Throw _ _ _ _ _ Hrun).
  - by rewrite (bind_Throw _ _ _ _ _ Hrun).
Qed.

Lemma listing_keeps m orderBy include (answer : list row → response) oops s :
  (try_catch
     (l ← findMany (prisma P) m orderBy include; mret (answer l)) oops s).2 = s.
Proof.
  unfold try_catch. destruct (connected s) eqn:Hup.
  - destruct (findMany_up (prisma P) m orderBy include s Hup) as [l Hl].
    by rewrite (bind_Ok _ _ _ _ _ Hl).
  - pose proof (findMany_down (prisma P) m orderBy include s Hup) as Hl.
    by rewrite (bind_Throw _ _ _ _ _ Hl).
Qed.

Lemma creation_keeps m sh msg include payload now s :
  NoDup (fname <$> sh) →
  let answer :=
    try_catch
      (d ← lift (parse sh payload);
       created ← (v ← lift (parse sh d); create (prisma P) m v now include);
       mret (json 201 (VObj created)))
      (zod_or_internal msg) s in
  status answer.1 ≠ 201 → answer.2 = s.
Proof.
  intros Hnd. simpl.
  destruct (parse sh payload) as [d|e] eqn:Hparse.
  - pose proof (parse_again _ _ _ Hnd Hparse) as Hagain.
    pose proof (create_run (prisma P) m d now include s) as Hrun.
    destruct (can_insert (prisma P) s m d).
    + destruct Hrun as (r & s' & Hrun).
      rewrite (try_catch_Ok _ _ s (json 201 (VObj r)) s'); [done|].
      erewrite bind_Ok by reflexivity.
      erewrite bind_Ok; [reflexivity|].
      erewrite bind_Ok; [exact Hrun|]. unfold lift. by rewrite Hagain.
    + destruct Hrun as (code & Hrun).
      rewrite (try_catch_Throw _ _ s (PrismaError code) s); [done|].
      erewrite bind_Ok by reflexivity.
      erewrite bind_Throw; [reflexivity|].
      erewrite bind_Ok; [exact Hrun|]. unfold lift. by rewrite Hagain.
  - by rewrite (try_catch_Throw _ _ s e s)
      by (by erewrite bind_Throw by reflexivity).
Qed.

Lemma change_keeps m id data now include s :
  let answer :=
    try_catch
      (changed ← update (prisma P) m (Env.parseInt id) data now include;
       mret (json 200 (VObj changed)))
      internal_error s in
  status answer.1 ≠ 200 → answer.2 = s.
Proof.
  simpl. destruct (Env.parseInt id) as [i|].
  - pose proof (update_run (prisma P) m i data now include s) as Hrun.
    destruct (can_update (prisma P) s m i data).
    + destruct Hrun as (r & s' & Hrun).
      by rewrite (try_catch_Ok _ _ s (json 200 (VObj r)) s')
        by (by rewrite (bind_Ok _ _ _ _ _ Hrun)).
    + destruct Hrun as (e & Hrun).
      by rewrite (try_catch_Throw _ _ s e s)
        by (by rewrite (bind_Throw _ _ _ _ _ Hrun)).
  - by rewrite (try_catch_Throw _ _ s invalid_arguments s).
Qed.

Lemma removal_keeps m id msg s :
  let answer :=
    try_catch
      (_ ← delete_ (prisma P) m (Env.parseInt id);
       mret (json 200 (message msg)))
      internal_error s in
  status answer.1 ≠ 200 → answer.2 = s.
Proof.
  simpl. destruct (Env.parseInt id) as [i|].
  - pose proof (delete_run (prisma P) m i s) as Hrun.
    destruct (can_delete (prisma P) s m i).
    + destruct Hrun as (r & s' & Hrun).
      by rewrite (try_catch_Ok _ _ s (json 200 (message msg)) s')
        by (by rewrite (bind_Ok _ _ _ _ _ Hrun)).
    + destruct Hrun as (e & Hrun).
      by rewrite (try_catch_Throw _ _ s e s)
        by (by rewrite (bind_Throw _ _ _ _ _ Hrun)).
  - by rewrite (try_catch_Throw _ _ s invalid_arguments s).
Qed.

Lemma create_Throw m data now include s e s' :
  create (prisma P) m data now include s = (Throw e, s') → s' = s.
Proof.
  pose proof (create_run (prisma P) m data now include s) as Hrun.
  destruct (can_insert (prisma P) s m data).
  - destruct Hrun as (r & s1 & ->). done.
  - destruct Hrun as (code & ->). by intros [= _ <-].
Qed.

Lemma register_keeps c payload s :
  status (handle P c (POST_auth_register payload) s).1 ≠ 201 →
  (handle P c (POST_auth_register payload) s).2 = s.
Proof.
  rewrite register_steps.
  destruct (parse _ (registration payload)) as [data|e]; [|done].
  destruct (getUserByEmail _ s) as [[[existing|]|e] s1]; [done| |done].
  unfold createUser.
  destruct (parse _ (<["password" := _]> data)) as [stored|e] eqn:Hparse.
  - erewrite bind_Ok by reflexivity.
    destruct (create (prisma P) User stored (now c) ∅ s) as [[user|e] s'] eqn:Hc.
    + done.
    + by rewrite (create_Throw _ _ _ _ _ _ _ Hc).
  - by erewrite bind_Throw by reflexivity.
Qed.

(** X1. A request that is answered neither 200 nor 201 leaves the store
    exactly as it was, and so does every probe, read and login, whatever
    the answer. *)
Theorem failures_and_reads_keep_the_store (c : context) (r : request) (s : db) :
  (status (handle P c r s).1 ∉ [200; 201] → (handle P c r s).2 = s) ∧
  (kind_of r ∈ [Probe; Readiness; Read; Login] → (handle P c r s).2 = s).
Proof.
  assert (kind_of r ∈ [Probe; Readiness; Read; Login] → (handle P c r s).2 = s)
    as Hreads.
  { intros Hkind. destruct r;
      try (simpl in Hkind;
           repeat (apply elem_of_cons in Hkind as [Hkind|Hkind]; [discriminate|]);
           by apply elem_of_nil in Hkind).
    - done.
    - apply (listing_keeps User ("createdAt", Desc) ∅
               (λ _, json 200 (VObj {[ "status" := VStr "ready" ]}))).
    - apply lookup_keeps.
    - apply (listing_keeps User ("createdAt", Desc) ∅
               (λ l, json 200 (rows_json l))).
    - by rewrite login_steps.
    - apply (listing_keeps Course ("createdAt", Desc) _
               (λ l, json 200 (rows_json l))).
    - apply lookup_keeps.
    - apply (listing_keeps Classroom ("createdAt", Desc) _
               (λ l, json 200 (rows_json l))).
    - done.
    - apply lookup_keeps.
    - apply lookup_keeps.
    - apply lookup_keeps.
    - apply lookup_keeps. }
  split; [|done]. intros Hst.
  assert (status (handle P c r s).1 ≠ 200 ∧ status (handle P c r s).1 ≠ 201)
    as [H200 H201].
  { split; intros Heq; apply Hst; rewrite Heq;
      [apply list_elem_of_here|apply list_elem_of_further, list_elem_of_here]. }
  destruct r;
    try (apply Hreads; simpl;
         first [apply list_elem_of_here
               |apply list_elem_of_further, list_elem_of_here
               |do 2 apply list_elem_of_further; apply list_elem_of_here
               |do 3 apply list_elem_of_further; apply list_elem_of_here]).
  - by apply creation_keeps; [apply insertUserSchema_names|].
  - by apply register_keeps.
  - by apply creation_keeps; [apply insertCourseSchema_names|].
  - by apply change_keeps.
  - by apply removal_keeps.
  - by apply creation_keeps; [apply insertClassroomSchema_names|].
  - by apply change_keeps.
  - by apply removal_keeps.
  - by apply change_keeps.
  - by apply change_keeps.
  - by apply change_keeps.
Qed.

(** X2. While the store is reachable, listing the users, the courses
    or the classrooms returns every stored row exactly once, each with
    the relations of the listing attached, the rows ordered from the
    latest [createdAt] to the earliest. *)
Theorem listings_are_complete_and_ordered
    (m : model) (getAll : M (list row)) (s : db) :
  (m, getAll) ∈
    [ (User, getUsers P); (Course, getCourses P); (Classroom, getClassrooms P) ] →
  connected s = true →
  ∃ include l,
    getAll s = (Ok (with_relations (prisma P) (rows s) m include <$> l), s) ∧
    l ≡ₚ (map_to_list (rows s m)).*2 ∧
    StronglySorted
      (λ r1 r2, ordering_key "createdAt" r2 ≤ ordering_key "createdAt" r1) l.
Proof.
  intros Hm Hup.
  assert (∃ include, getAll = findMany (prisma P) m ("createdAt", Desc) include)
    as [include ->].
  { repeat (apply elem_of_cons in Hm as [[= -> ->]|Hm]);
      [| | |by apply elem_of_nil in Hm]; by eexists. }
  exists include, (merge_sort (before "createdAt" Desc) (map_to_list (rows s m)).*2).
  split_and!.
  - unfold findMany. by run.
  - apply merge_sort_Permutation.
  - apply (StronglySorted_merge_sort (before "createdAt" Desc)).
Qed.

End Store.
End StoreFacts.

(** ** Users, registration and login *)

Module UserFacts.
Import Zod ZodFacts Prisma PrismaFacts Storage Routes Policy.
Import DeleteFacts CreateFacts AuthFacts.

Section Users.
Variable P : platform.

(** A validated create that is answered 201 has parsed the payload and
    stored what it parsed. *)
Lemma creation_201 m sh msg include payload now s r s' :
  NoDup (fname <$> sh) →
  try_catch
    (d ← lift (parse sh payload);
     created ← (v ← lift (parse sh d); create (prisma P) m v now include);
     mret (json 201 (VObj created)))
    (zod_or_internal msg) s = (r, s') →
  status r = 201 →
  ∃ d created,
    parse sh payload = Ok d ∧
    create (prisma P) m d now include s = (Ok created, s') ∧
    r = json 201 (VObj created).
Proof.
  intros Hnd Hrun Hst.
  destruct (parse sh payload) as [d|e] eqn:Hparse.
  - pose proof (parse_again _ _ _ Hnd Hparse) as Hagain.
    destruct (create (prisma P) m d now include s) as [[created|e] s1] eqn:Hc.
    + rewrite (try_catch_Ok _ _ s (json 201 (VObj created)) s1) in Hrun.
      * injection Hrun as <- <-. eauto.
      * erewrite bind_Ok by reflexivity.
        erewrite bind_Ok; [reflexivity|].
        erewrite bind_Ok; [exact Hc|]. unfold lift. by rewrite Hagain.
    + rewrite (try_catch_Throw _ _ s e s1) in Hrun.
      * injection Hrun as <- <-.
        destruct (status_zod_or_internal msg e); lia.
      * erewrite bind_Ok by reflexivity.
        erewrite bind_Throw; [reflexivity|].
        erewrite bind_Ok; [exact Hc|]. unfold lift. by rewrite Hagain.
  - rewrite (try_catch_Throw _ _ s e s) in Hrun
      by (by erewrite bind_Throw by reflexivity).
    injection Hrun as <- <-. destruct (status_zod_or_internal msg e); lia.
Qed.

(** X3. [POST /api/users] hashes nothing and strips nothing: when it is
    answered 201, the row it stores and the row it answers with both
    hold the password exactly as it was submitted. *)
Theorem posted_user_keeps_the_submitted_password
    (c : context) (payload : object) (s s' : db) (r : response) (p : value) :
  handle P c (POST_users payload) s = (r, s') →
  status r = 201 →
  payload !! "password" = Some p →
  ∃ answered i stored,
    body r = VObj answered ∧
    answered !! "password" = Some p ∧
    rows s' User !! i = Some stored ∧
    stored !! "password" = Some p.
Proof.
  intros Hrun Hst Hp.
  pose proof (insertUserSchema_names (is_email P)) as Hnd.
  apply creation_201 in Hrun as (d & created & Hparse & Hcreate & ->); try done.
  pose proof (parse_field_value _ _ _ _ Hnd (password_field P) Hparse) as Hpw.
  simpl in Hpw. rewrite Hp in Hpw.
  apply create_Ok in Hcreate as (id & Hstored & _ & _ & _ & _ & ->).
  assert ((<["id" := VNum id]> (d ∪ column_defaults (prisma P) User (now c)))
            !! "password" = Some p) as Hrow.
  { rewrite lookup_insert_ne by done. by apply lookup_union_Some_l. }
  eexists _, id, _. split_and!; [reflexivity| |exact Hstored|exact Hrow].
  by apply lookup_union_Some_l.
Qed.

(** X4. [GET /api/users/:id] answers with the stored row as it is: when
    the user is stored, the answer is 200 and carries the password field
    of the row. *)
Theorem user_lookup_shows_the_password
    (c : context) (id : string) (i : Z) (s : db) (stored : row) (h : value) :
  Env.parseInt id = Some i →
  connected s = true →
  admits (prisma P) (rows s) (Find User i) = true →
  rows s User !! i = Some stored →
  stored !! "password" = Some h →
  ∃ answered,
    handle P c (GET_users_id id) s = (json 200 (VObj answered), s) ∧
    answered !! "password" = Some h.
Proof.
  intros Hid Hup Hadm Hrow Hpw. eexists. split.
  - unfold handle. apply try_catch_Ok. unfold getUserById. rewrite Hid.
    erewrite bind_Ok by (by apply findUnique_up). by rewrite Hrow.
  - by apply lookup_union_Some_l.
Qed.

(** X5. A registration that is answered 201 stores the role and the
    master flag that the client sent: the role is [student] only when
    none was sent or the one sent is falsy, and any other text is stored
    as the role. *)
Theorem registration_stores_the_submitted_role
    (c : context) (payload : object) (s s' : db) (r : response) :
  handle P c (POST_auth_register payload) s = (r, s') →
  status r = 201 →
  ∃ i stored,
    rows s' User !! i = Some stored ∧
    (truthy (payload !! "role") = false →
     stored !! "role" = Some (VStr "student")) ∧
    (∀ role, payload !! "role" = Some (VStr role) → role ≠ "" →
             stored !! "role" = Some (VStr role)) ∧
    (∀ flag, payload !! "isMaster" = Some flag →
             stored !! "isMaster" = Some flag).
Proof.
  intros Hrun Hst.
  apply register_201 in Hrun as (data & sd & user & Hp1 & _ & Hp2 & Hcreate & _);
    [|done].
  pose proof (insertUserSchema_names (is_email P)) as Hnd.
  assert (Field "role" ZString (Default (VStr "student"))
            ∈ insertUserSchema (is_email P)) as Hrole.
  { do 3 apply list_elem_of_further. apply list_elem_of_here. }
  assert (Field "isMaster" ZBoolean (Default (VBool false))
            ∈ insertUserSchema (is_email P)) as Hmaster.
  { do 4 apply list_elem_of_further. apply list_elem_of_here. }
  pose proof (parse_field_value _ _ _ _ Hnd Hrole Hp1) as Hr1.
  pose proof (parse_field_value _ _ _ _ Hnd Hrole Hp2) as Hr2.
  pose proof (parse_field_value _ _ _ _ Hnd Hmaster Hp1) as Hm1.
  pose proof (parse_field_value _ _ _ _ Hnd Hmaster Hp2) as Hm2.
  simpl in Hr1, Hr2, Hm1, Hm2.
  unfold registration in Hr1. rewrite lookup_insert_eq in Hr1.
  rewrite registration_keeps in Hm1 by done.
  rewrite lookup_insert_ne, Hr1 in Hr2 by done.
  rewrite lookup_insert_ne in Hm2 by done.
  apply create_Ok in Hcreate as (id & Hstored & _ & _ & _ & _ & _).
  eexists id, _. split; [exact Hstored|].
  split_and!.
  - intros Hfalsy. rewrite lookup_insert_ne by done.
    apply lookup_union_Some_l. rewrite Hr2. unfold or_else.
    destruct (payload !! "role"); by rewrite ?Hfalsy.
  - intros role Hsent Hne. rewrite lookup_insert_ne by done.
    apply lookup_union_Some_l. rewrite Hr2, Hsent. simpl.
    apply String.eqb_neq in Hne. by rewrite Hne.
  - intros flag Hsent. rewrite lookup_insert_ne by done.
    apply lookup_union_Some_l. rewrite Hm2.
    destruct (data !! "isMaster") as [v|] eqn:Hv; rewrite Hsent in Hm1; congruence.
Qed.

Lemma clashes_on (t : table) cols (data : row) col v i other :
  col ∈ cols → data !! col = Some (VStr v) →
  t !! i = Some other → other !! col = Some (VStr v) →
  clashes t cols data = true.
Proof.
  intros Hcol Hdata Hother Hv. unfold clashes.
  apply existsb_exists. exists col. split; [by apply list_elem_of_In|].
  rewrite Hdata. apply existsb_exists. exists (i, other).
  split; [by apply list_elem_of_In, elem_of_map_to_list|].
  by apply has_string_eq.
Qed.

(** X6. A registration whose email is new but whose username is taken is
    not told so: the insert fails on the unique username, the answer is
    the bare 500, and nothing is stored. *)
Theorem registration_with_a_taken_username
    (c : context) (payload : object) (s : db) (e u : string)
    (i : Z) (other : row) :
  connected s = true →
  (∀ data, admits (prisma P) (rows s) (Insert User data) = true) →
  forallb (field_ok (registration payload)) (insertUserSchema (is_email P)) = true →
  payload !! "email" = Some (VStr e) →
  payload !! "username" = Some (VStr u) →
  (∀ j r, rows s User !! j = Some r → r !! "email" ≠ Some (VStr e)) →
  rows s User !! i = Some other →
  other !! "username" = Some (VStr u) →
  handle P c (POST_auth_register payload) s =
    (failure 500 "Internal server error", s).
Proof.
  intros Hup Hadm Hvalid He Hu Hnew Hother Hname.
  pose proof (insertUserSchema_names (is_email P)) as Hnd.
  rewrite register_steps.
  destruct (parse _ (registration payload)) as [data|err] eqn:Hparse;
    [|apply parse_Throw in Hparse as [? _]; congruence].
  pose proof (parsed_settled _ _ _ Hnd Hparse) as Hsettled.
  pose proof (parsed_text _ _ _ _ e Hnd (email_field P) Hparse) as Htext.
  simpl in Htext. rewrite Htext by (by rewrite registration_keeps).
  unfold getUserByEmail. rewrite findUniqueBy_up by done.
  destruct (list_find _ _) as [[j kr]|] eqn:Hfind.
  { apply find_by_Some in Hfind as [Hkr Hhas%has_string_true].
    by destruct (Hnew _ _ Hkr). }
  simpl. set (stored := <["password" := _]> data).
  assert (parse (insertUserSchema (is_email P)) stored = Ok stored) as Hagain.
  { apply parse_settled; [done|].
    by apply (settled_insert _ _ (Field "password" ZString Required) _ Hnd Hsettled
                (password_field P)). }
  assert (Field "username" ZString Required ∈ insertUserSchema (is_email P))
    as Hfield by apply list_elem_of_here.
  pose proof (parse_field_value _ _ _ _ Hnd Hfield Hparse) as Hdu.
  simpl in Hdu. rewrite registration_keeps, Hu in Hdu by done.
  assert (clashes (rows s User) (unique_columns User) stored = true) as Hclash.
  { apply (clashes_on _ _ _ "username" u i other); try done.
    - apply list_elem_of_here.
    - unfold stored. by rewrite lookup_insert_ne. }
  unfold createUser.
  erewrite bind_Ok; [|unfold lift; by rewrite Hagain].
  pose proof (create_run (prisma P) User stored (now c) ∅ s) as Hrun.
  unfold can_insert in Hrun. rewrite Hclash, andb_false_r in Hrun.
  destruct Hrun as [code ->]. done.
Qed.

(** X7. A login that is turned away does not tell why: an email that
    no user has and a wrong password for a stored user get the same 401
    answer, and the store is left alone. *)
Theorem login_refusals_look_alike
    (c : context) (payload : object) (s : db) (e q : string) :
  connected s = true →
  payload !! "email" = Some (VStr e) → e ≠ "" →
  payload !! "password" = Some (VStr q) → q ≠ "" →
  ((∀ j r, rows s User !! j = Some r → r !! "email" ≠ Some (VStr e)) →
   handle P c (POST_auth_login payload) s =
     (failure 401 "Invalid credentials", s)) ∧
  (∀ i stored h,
     rows s User !! i = Some stored →
     stored !! "email" = Some (VStr e) →
     (∀ j r, rows s User !! j = Some r → r !! "email" = Some (VStr e) →
             r = stored) →
     stored !! "password" = Some (VStr h) →
     Bcrypt.compare (eks P) (compare_other P) q h = false →
     handle P c (POST_auth_login payload) s =
       (failure 401 "Invalid credentials", s)).
Proof.
  intros Hup He Hne Hq Hqne.
  apply String.eqb_neq in Hne, Hqne.
  split.
  - intros Hnew. rewrite login_steps, He, Hq.
    unfold getUserByEmail. rewrite findUniqueBy_up by done.
    simpl. rewrite Hne, Hqne. simpl.
    destruct (list_find _ _) as [[j kr]|] eqn:Hfind; [|done].
    apply find_by_Some in Hfind as [Hkr Hhas%has_string_true].
    by destruct (Hnew _ _ Hkr).
  - intros i stored h Hstored Hse Honly Hpw Hwrong.
    rewrite login_steps, He, Hq.
    unfold getUserByEmail. rewrite findUniqueBy_up by done.
    simpl. rewrite Hne, Hqne. simpl.
    destruct (list_find _ _) as [[j kr]|] eqn:Hfind; simpl; [|done].
    apply find_by_Some in Hfind as [Hkr Hhas%has_string_true].
    rewrite (Honly _ _ Hkr Hhas), Hpw. by rewrite Hwrong.
Qed.

End Users.
End UserFacts.

(** ** What the writes store *)

Module WriteFacts.
Import Zod ZodFacts Prisma PrismaFacts Storage Routes Policy.
Import DeleteFacts CreateFacts AuthFacts UserFacts.

(** The issues of a parse are the keys that do not parse, in the order
    of the shape. *)
Lemma parse_keys_reports (sh : list field) input :
  (parse_keys sh input).1 =
  fname <$> filter (λ f, field_ok input f = false) sh.
Proof.
  induction sh as [|f sh IH]; [done|].
  assert (∀ path, parse_field input f = inl path → path = fname f) as Hpath.
  { unfold parse_field. intros path.
    destruct (input !! fname f), (fpres f);
      try destruct (check _ _); congruence. }
  cbn [parse_keys].
  destruct (parse_keys sh input) as [issues out]; simpl in IH.
  destruct (field_ok input f) eqn:Hok.
  - rewrite filter_cons_False by (by rewrite Hok).
    unfold field_ok in Hok.
    by destruct (parse_field input f) as [path|[v|]].
  - rewrite filter_cons_True by done.
    unfold field_ok in Hok.
    destruct (parse_field input f) as [path|[v|]]; try done.
    simpl. by rewrite (Hpath path), IH.
Qed.

Section Writes.
Variable P : platform.

(** What a successful update has stored. *)
Lemma update_Ok m i data now include s r s' :
  update (prisma P) m (Some i) data now include s = (Ok r, s') →
  ∃ old,
    rows s m !! i = Some old ∧
    rows s' m !! update_key i data =
      Some (data ∪ updated_columns (prisma P) m now ∪ old).
Proof.
  unfold update, update_key. destruct (connected s) eqn:Hup; [|by run].
  run. destruct (admits (prisma P) (rows s) (Update m i data)); run; [|done].
  destruct (rows s m !! i) as [old|] eqn:Hold; run; [|done].
  destruct (clashes _ _ _); run; [done|].
  case_bool_decide; run; [|done].
  intros [= <- <-]. exists old. split; [done|]. simpl.
  rewrite fn_lookup_insert. apply lookup_insert_eq.
Qed.

Lemma change_200 m id data now include s r s' :
  try_catch
    (changed ← update (prisma P) m (Env.parseInt id) data now include;
     mret (json 200 (VObj changed)))
    internal_error s = (r, s') →
  status r = 200 →
  ∃ i changed,
    Env.parseInt id = Some i ∧
    update (prisma P) m (Some i) data now include s = (Ok changed, s').
Proof.
  intros Hrun Hst. destruct (Env.parseInt id) as [i|].
  - destruct (update (prisma P) m (Some i) data now include s)
      as [[changed|e] s1] eqn:Hu.
    + rewrite (try_catch_Ok _ _ s (json 200 (VObj changed)) s1) in Hrun
        by (by rewrite (bind_Ok _ _ _ _ _ Hu)).
      injection Hrun as <- <-. eauto.
    + rewrite (try_catch_Throw _ _ s e s1) in Hrun
        by (by rewrite (bind_Throw _ _ _ _ _ Hu)).
      by injection Hrun as <- <-.
  - rewrite (try_catch_Throw _ _ s invalid_arguments s) in Hrun by done.
    by injection Hrun as <- <-.
Qed.

(** X8. The validated creates take nothing from the payload but the
    fields of their schema: when [POST /api/users], [/api/courses] or
    [/api/classrooms] is answered 201, the row is stored under the next
    key of the sequence, whatever [id] the payload carries, and every
    column outside the schema holds the column default and not what the
    payload has under that key. *)
Theorem unknown_keys_never_reach_the_store
    (m : model) (sh : shape) (POST : object → request)
    (c : context) (payload : object) (s s' : db) (r : response) :
  (m, sh, POST) ∈
    [ (User, insertUserSchema (is_email P), POST_users);
      (Course, insertCourseSchema, POST_courses);
      (Classroom, insertClassroomSchema, POST_classrooms) ] →
  handle P c (POST payload) s = (r, s') →
  status r = 201 →
  ∃ stored,
    rows s' m !! sequence s m = Some stored ∧
    stored !! "id" = Some (VNum (sequence s m)) ∧
    ∀ k, k ∉ fname <$> sh → k ≠ "id" →
         stored !! k = column_defaults (prisma P) m (now c) !! k.
Proof.
  intros Hm Hrun Hst.
  pose proof (schemas_without_id (is_email P)) as Hno.
  rewrite !Forall_cons in Hno. destruct Hno as (Hno1 & Hno2 & Hno3 & _).
  assert (NoDup (fname <$> sh) ∧ ("id" ∉ (fname <$> sh)) ∧
          ∃ d created,
            parse sh payload = Ok d ∧
            (∃ include,
               create (prisma P) m d (now c) include s = (Ok created, s')))
    as (Hnd & Hid & d & created & Hparse & include & Hcreate).
  { repeat (apply elem_of_cons in Hm as [[= -> -> ->]|Hm]);
      [| | |by apply elem_of_nil in Hm].
    - pose proof (insertUserSchema_names (is_email P)) as Hnd.
      apply creation_201 in Hrun as (d & created & ? & ? & _); eauto 10.
    - pose proof insertCourseSchema_names as Hnd.
      apply creation_201 in Hrun as (d & created & ? & ? & _); eauto 10.
    - pose proof insertClassroomSchema_names as Hnd.
      apply creation_201 in Hrun as (d & created & ? & ? & _); eauto 10. }
  pose proof (parse_dom _ _ _ _ Hparse Hid) as Hdid.
  unfold create in Hcreate. revert Hcreate.
  destruct (connected s) eqn:Hup; [|by run].
  run. destruct (admits _ _ _); run; [|done].
  destruct (clashes _ _ _); run; [done|].
  rewrite Hdid. case_bool_decide; run; [|done].
  intros [= <- <-]. eexists. simpl. rewrite fn_lookup_insert.
  split_and!.
  - apply lookup_insert_eq.
  - apply lookup_insert_eq.
  - intros k Hk Hkid. rewrite lookup_insert_ne by done.
    rewrite lookup_union_r; [done|]. by apply (parse_dom _ _ _ _ Hparse).
Qed.

(** X9. A payload that fails validation at [POST /api/users],
    [/api/courses] or [/api/classrooms] is answered 400 with the names
    of all the fields that are missing or ill-typed, in the order of the
    schema, and nothing is stored. *)
Theorem validation_names_every_bad_field
    (sh : list field) (msg : string) (POST : object → request)
    (c : context) (payload : object) (s : db) :
  (sh, msg, POST) ∈
    [ (insertUserSchema (is_email P), "Invalid user data", POST_users);
      (insertCourseSchema, "Invalid course data", POST_courses);
      (insertClassroomSchema, "Invalid classroom data", POST_classrooms) ] →
  forallb (field_ok payload) sh = false →
  handle P c (POST payload) s =
    (json 400
       (VObj {[ "error" := VStr msg;
                "details" :=
                  VArr (VStr <$> (fname <$>
                          filter (λ f, field_ok payload f = false) sh)) ]}),
     s).
Proof.
  intros Hm Hbad.
  assert (parse sh payload =
          Throw (ZodError (fname <$> filter (λ f, field_ok payload f = false) sh)))
    as Hparse.
  { unfold parse. rewrite <- parse_keys_reports.
    destruct (parse_keys sh payload) as [[|i issues] o] eqn:Hpk; [|done].
    pose proof (proj1 (parse_keys_issues sh payload)) as Hall.
    rewrite Hpk in Hall. rewrite Hall in Hbad; done. }
  repeat (apply elem_of_cons in Hm as [[= -> -> ->]|Hm]);
    [| | |by apply elem_of_nil in Hm];
    unfold handle;
    (erewrite try_catch_Throw;
       [|erewrite bind_Throw;
           [reflexivity|unfold lift; rewrite Hparse; reflexivity]]);
    reflexivity.
Qed.

(** X10. The second validation, the one inside [createUser],
    [createCourse] and [createClassroom], lets through whatever the
    first one produced and hands it to the database unchanged. *)
Theorem validated_data_pass_the_storage_check
    (m : model) (sh : shape) (createX : object → Z → M row)
    (payload d : object) (now : Z) (s : db) :
  (m, sh, createX) ∈
    [ (User, insertUserSchema (is_email P), createUser P);
      (Course, insertCourseSchema, createCourse P);
      (Classroom, insertClassroomSchema, createClassroom P) ] →
  parse sh payload = Ok d →
  ∃ include, createX d now s = create (prisma P) m d now include s.
Proof.
  intros Hm Hparse.
  assert (NoDup (fname <$> sh)) as Hnd.
  { repeat (apply elem_of_cons in Hm as [[= _ -> _]|Hm]);
      [| | |by apply elem_of_nil in Hm];
      auto using insertUserSchema_names, insertCourseSchema_names,
                 insertClassroomSchema_names. }
  pose proof (parse_again _ _ _ Hnd Hparse) as Hagain.
  repeat (apply elem_of_cons in Hm as [[= -> -> ->]|Hm]);
    [| | |by apply elem_of_nil in Hm];
    eexists; unfold createUser, createCourse, createClassroom;
    (erewrite bind_Ok; [reflexivity|unfold lift; by rewrite Hagain]).
Qed.

(** X11. [PATCH /api/courses/:id] and [PATCH /api/classrooms/:id] check
    nothing: when the answer is 200, every key of the body is a column
    of the stored row, with the value the body gave it. *)
Theorem patch_stores_the_body_as_it_is
    (m : model) (PATCH : string → object → request)
    (c : context) (id : string) (payload : object) (s s' : db) (r : response) :
  (m, PATCH) ∈
    [ (Course, PATCH_courses_id); (Classroom, PATCH_classrooms_id) ] →
  handle P c (PATCH id payload) s = (r, s') →
  status r = 200 →
  ∃ i stored,
    Env.parseInt id = Some i ∧
    rows s' m !! update_key i payload = Some stored ∧
    ∀ k v, payload !! k = Some v → stored !! k = Some v.
Proof.
  intros Hm Hrun Hst.
  assert (∃ i changed include,
            Env.parseInt id = Some i ∧
            update (prisma P) m (Some i) payload (now c) include s
              = (Ok changed, s')) as (i & changed & include & Hid & Hu).
  { repeat (apply elem_of_cons in Hm as [[= -> ->]|Hm]);
      [| |by apply elem_of_nil in Hm];
      apply change_200 in Hrun as (i & changed & ? & ?); eauto 10. }
  apply update_Ok in Hu as (old & _ & Hstored).
  eexists i, _. split_and!; [done|exact Hstored|].
  intros k v Hk. by apply lookup_union_Some_l, lookup_union_Some_l.
Qed.

Lemma pick_lookup ks (o : object) k :
  pick ks o !! k = if decide (k ∈ ks) then o !! k else None.
Proof.
  unfold pick. destruct (o !! k) as [v|] eqn:Hk.
  - case_decide as Hin.
    + by apply map_lookup_filter_Some.
    + apply map_lookup_filter_None. right. intros v' Hv'. simpl. done.
  - case_decide; apply map_lookup_filter_None; by left.
Qed.

(** X12. The three review routes write only the columns of a review:
    when [PATCH .../status] is answered 200, the row is still under its
    id, and every column other than the status, the reviewer, the notes
    and the three time stamps, unless the schema rewrites it on update,
    holds what it held before, whatever the body carries under that
    key. *)
Theorem review_routes_write_only_review_columns
    (m : model) (PATCH : string → object → request) (notes : string)
    (c : context) (id : string) (payload : object) (s s' : db) (r : response) :
  (m, PATCH, notes) ∈
    [ (StaffRequest, PATCH_staff_requests_id_status, "adminNotes");
      (MasterRoleRequest, PATCH_master_role_requests_id_status, "adminNotes");
      (ResignationRequest, PATCH_resignation_requests_id_status, "masterNotes") ] →
  handle P c (PATCH id payload) s = (r, s') →
  status r = 200 →
  ∃ i old stored,
    Env.parseInt id = Some i ∧
    rows s m !! i = Some old ∧
    rows s' m !! i = Some stored ∧
    ∀ k,
      k ∉ ["status"; "reviewedBy"; notes; "reviewedAt"; "approvedAt"; "rejectedAt"] →
      updated_columns (prisma P) m (now c) !! k = None →
      stored !! k = old !! k.
Proof.
  intros Hm Hrun Hst.
  assert (∃ i changed include data,
            Env.parseInt id = Some i ∧
            update (prisma P) m (Some i) data (now c) include s
              = (Ok changed, s') ∧
            ∀ k, k ∉ ["status"; "reviewedBy"; notes;
                      "reviewedAt"; "approvedAt"; "rejectedAt"] →
                 data !! k = None)
    as (i & changed & include & data & Hid & Hu & Hdata).
  { repeat (apply elem_of_cons in Hm as [[= -> -> ->]|Hm]);
      [| | |by apply elem_of_nil in Hm];
      apply change_200 in Hrun as (i & changed & ? & ?); try done;
      eexists i, changed, _, _; (split_and!; [done..|]);
      intros k Hk; rewrite !not_elem_of_cons in Hk;
      destruct Hk as (? & ? & ? & ? & ? & ? & _).
    - unfold staffRequestUpdate.
      destruct (_ && _); rewrite ?lookup_insert_ne by done;
        rewrite pick_lookup; apply decide_False;
        rewrite !not_elem_of_cons; split_and!; try done; apply not_elem_of_nil.
    - unfold masterRoleRequestUpdate.
      repeat match goal with
             | |- context [match ?x with _ => _ end] => destruct x
             end; rewrite ?lookup_insert_ne by done;
        rewrite pick_lookup; apply decide_False;
        rewrite !not_elem_of_cons; split_and!; try done; apply not_elem_of_nil.
    - unfold resignationRequestUpdate.
      destruct (truthy _); rewrite ?lookup_insert_ne by done;
        rewrite pick_lookup; apply decide_False;
        rewrite !not_elem_of_cons; split_and!; try done; apply not_elem_of_nil. }
  apply update_Ok in Hu as (old & Hold & Hstored).
  assert (data !! "id" = None) as Hnoid.
  { apply Hdata. rewrite !not_elem_of_cons. split_and!; try done.
    - intros <-. repeat (apply elem_of_cons in Hm as [[=]|Hm]).
      by apply elem_of_nil in Hm.
    - apply not_elem_of_nil. }
  unfold update_key in Hstored. rewrite Hnoid in Hstored.
  eexists i, old, _. split_and!; [done..|].
  intros k Hk Hupd.
  rewrite lookup_union_r; [done|].
  apply lookup_union_None. split; [by apply Hdata|done].
Qed.

End Writes.
End WriteFacts.

(** ** Ids in paths *)

Module IdFacts.
Import Env Digits Prisma Storage Routes.

Lemma digit_value_decimal c :
  decimal_digit c = true →
  ∃ d, digit_value c = Some d ∧ 0 ≤ d < 10.
Proof.
  unfold decimal_digit, digit_value. intros Hc. rewrite Hc.
  eexists. split; [done|]. lia.
Qed.

Lemma digit_value_other c d :
  decimal_digit c = false → digit_value c = Some d → 10 ≤ d.
Proof.
  unfold decimal_digit, digit_value. intros ->.
  repeat case_match; intros [= <-]; lia.
Qed.

(** Reading stops at the first character that is no decimal digit. *)
Lemma read_digits_stops acc junk :
  starts_with_digit junk = false → read_digits 10 acc junk = acc.
Proof.
  destruct junk as [|c junk]; simpl; [done|]. intros Hc.
  destruct (digit_value c) as [d|] eqn:Hd; [|done].
  pose proof (digit_value_other c d Hc Hd).
  by rewrite (proj2 (Z.ltb_ge d 10)).
Qed.

Lemma read_digits_app acc digits junk :
  decimal digits = true → starts_with_digit junk = false →
  read_digits 10 acc (digits ++ junk) = read_digits 10 acc digits.
Proof.
  revert acc. induction digits as [|c digits IH]; intros acc Hdigits Hjunk.
  - simpl. rewrite read_digits_stops by done. by destruct junk.
  - unfold decimal in Hdigits. simpl in Hdigits.
    apply andb_true_iff in Hdigits as [Hc Hdigits].
    destruct (digit_value_decimal c Hc) as (d & Hd & Hrange).
    simpl. rewrite Hd. rewrite (proj2 (Z.ltb_lt d 10)) by lia.
    by apply IH.
Qed.

Lemma utf8_space_lead x s :
  String x s ∈ utf8_spaces → (194 ≤ nat_of_ascii x)%nat.
Proof.
  unfold utf8_spaces. rewrite list_elem_of_fmap. intros (l & Heq & Hl).
  repeat (apply elem_of_cons in Hl as [->|Hl]);
    try (by apply elem_of_nil in Hl);
    injection Heq as -> _; vm_compute; lia.
Qed.

Lemma digit_is_no_space x s :
  decimal_digit x = true →
  is_space x = false ∧ bool_decide (String x s ∈ utf8_spaces) = false.
Proof.
  unfold decimal_digit, is_space. intros Hx.
  apply andb_true_iff in Hx as [Hlo Hhi].
  apply Z.leb_le in Hlo, Hhi. split.
  - apply orb_false_iff. split.
    + apply andb_false_iff. right. apply Nat.leb_gt. lia.
    + apply Nat.eqb_neq. lia.
  - apply bool_decide_eq_false. intros Hin%utf8_space_lead. lia.
Qed.

Lemma trim_start_digit x rest :
  decimal_digit x = true → trim_start (String x rest) = String x rest.
Proof.
  intros Hx.
  destruct rest as [|c1 [|c2 rest]]; cbn [trim_start];
    rewrite ?(proj1 (digit_is_no_space x "" Hx));
    rewrite ?(proj2 (digit_is_no_space x _ Hx)); done.
Qed.

(** A character that is a decimal digit other than [0] starts no white
    space, no sign and no hexadecimal prefix. *)
Lemma parseInt_from_digit c rest :
  decimal_digit c = true → c ≠ "0"%char →
  parseInt (String c rest) = read_digits 10 None (String c rest).
Proof.
  intros Hc Hnz. unfold parseInt. rewrite trim_start_digit by done.
  destruct c as [[] [] [] [] [] [] [] []]; try discriminate Hc;
    try (by destruct Hnz);
    cbn [strip_sign strip_hex];
    destruct (read_digits 10 None _) as [n|]; simpl; try done;
    f_equal; lia.
Qed.

Lemma parseInt_ignores_what_follows c digits junk :
  decimal_digit c = true → c ≠ "0"%char →
  decimal digits = true → starts_with_digit junk = false →
  parseInt (String c digits ++ junk) = parseInt (String c digits).
Proof.
  intros Hc Hnz Hdigits Hjunk.
  change (String c digits ++ junk)%string with (String c (digits ++ junk)).
  rewrite !parseInt_from_digit by done.
  change (String c (digits ++ junk)) with (String c digits ++ junk)%string.
  apply read_digits_app; [|done].
  unfold decimal. simpl. by rewrite Hc.
Qed.

Section Ids.
Variable P : platform.

(** X13. An id in a path is read with [parseInt]: whatever follows its
    leading digits is ignored, so that a request for [12abc] is the
    request for [12], on every route that takes an id. *)
Theorem ids_are_read_up_to_the_first_non_digit
    (route : string → request) (payload : object)
    (c : context) (s : db) (d : ascii) (digits junk : string) :
  route ∈
    [ GET_users_id; GET_courses_id; DELETE_courses_id;
      GET_classrooms_id; DELETE_classrooms_id;
      GET_staff_requests_id; GET_master_role_requests_id;
      GET_resignation_requests_id;
      (λ id, PATCH_courses_id id payload);
      (λ id, PATCH_classrooms_id id payload);
      (λ id, PATCH_staff_requests_id_status id payload);
      (λ id, PATCH_master_role_requests_id_status id payload);
      (λ id, PATCH_resignation_requests_id_status id payload) ] →
  decimal_digit d = true → d ≠ "0"%char →
  decimal digits = true →
  starts_with_digit junk = false →
  handle P c (route (String d digits ++ junk)) s =
  handle P c (route (String d digits)) s.
Proof.
  intros Hroute Hd Hnz Hdigits Hjunk.
  pose proof (parseInt_ignores_what_follows d digits junk Hd Hnz Hdigits Hjunk)
    as Hid.
  repeat (apply elem_of_cons in Hroute as [->|Hroute]);
    try (by apply elem_of_nil in Hroute);
    unfold handle; by rewrite Hid.
Qed.

End Ids.
End IdFacts.
